(** * Color Match Challenge (Stroop game): the engine of [script.js]

    A shallow embedding of class [ColorMatchGame] and of the parts of the
    browser it talks to (timers, [localStorage], the DOM nodes it writes,
    [Math.random]), followed by the properties of the round engine.

    Conventions of the embedding.
    - A JavaScript number is [NaN] or an exact integer ([num]); the rounding
      of doubles beyond 2^53 and the distinction between +0 and -0 are not
      represented.  [currentScore] and [currentTimeLimit] only ever hold
      integers and are of type [Z].
    - A JavaScript string is a [string] whose characters are the code units
      0..255.
    - [Math.random()] is an infinite sequence [nat -> Q] read through a
      cursor; the [do ... while] loop of [generateRoundData] takes fuel and
      answers [None] when the fuel does not suffice.
    - Audio playback ([playSound], [initializeSounds]) touches no state of the
      engine and is left out. *)

From Stdlib Require Import ZArith QArith Qround Lia Ascii String.
From stdpp Require Import base option list strings gmap.

Local Open Scope string_scope.
Local Open Scope Z_scope.

(** ** JavaScript numbers and strings *)

(** The numbers of the program are integers or NaN, and are modelled as
    exact integers.  A JavaScript Number is a double: the two agree on
    every integer of absolute value up to 2^53, which a score reaches only
    after 9 * 10^14 correct answers.  Beyond that bound a Number rounds,
    and what is stated of the code about [parseInt] and [toString] is
    stated for integers within it. *)
Inductive num : Type :=
| NaN
| Int (z : Z).

#[global] Instance num_eq_dec : EqDecision num.
Proof. solve_decision. Defined.

(** [a > b] where [a] is an integer: false against [NaN]. *)
Definition gt_num (a : Z) (b : num) : bool :=
  match b with
  | NaN => false
  | Int z => z <? a
  end.

Module JS.

Definition charCode (c : ascii) : Z := Z.of_nat (nat_of_ascii c).

(** WhiteSpace and LineTerminator code units below 256:
    TAB, LF, VT, FF, CR, SP and NBSP. *)
Definition isWhiteSpace (c : ascii) : bool :=
  let n := charCode c in
  ((9 <=? n) && (n <=? 13)) || (n =? 32) || (n =? 160).

(** The value of a character as a digit, up to "z" = 35. *)
Definition digitValue (c : ascii) : option Z :=
  let n := charCode c in
  if (48 <=? n) && (n <=? 57) then Some (n - 48)
  else if (97 <=? n) && (n <=? 122) then Some (n - 87)
  else if (65 <=? n) && (n <=? 90) then Some (n - 55)
  else None.

Definition radixDigit (R : Z) (c : ascii) : option Z :=
  match digitValue c with
  | Some d => if d <? R then Some d else None
  | None => None
  end.

Fixpoint trimStart (s : string) : string :=
  match s with
  | String c rest => if isWhiteSpace c then trimStart rest else s
  | EmptyString => s
  end.

(** The longest prefix of radix-[R] digits, most significant first. *)
Fixpoint leadingDigits (R : Z) (s : string) : list Z :=
  match s with
  | String c rest =>
      match radixDigit R c with
      | Some d => d :: leadingDigits R rest
      | None => []
      end
  | EmptyString => []
  end.

Definition mathInt (R : Z) (ds : list Z) : Z :=
  fold_left (fun acc d => acc * R + d) ds 0.

Definition splitSign (s : string) : Z * string :=
  match s with
  | String "-" rest => (-1, rest)
  | String "+" rest => (1, rest)
  | _ => (1, s)
  end.

Definition splitPrefix (s : string) : Z * string :=
  match s with
  | String "0" (String "x" rest) => (16, rest)
  | String "0" (String "X" rest) => (16, rest)
  | _ => (10, s)
  end.

(** [parseInt(string)] with no radix argument, on mathematical integers:
    the white space is trimmed, a sign and a [0x] prefix are read, and the
    longest prefix of digits gives the value; NaN when there is no digit.
    The Number JavaScript returns is this integer whenever its absolute
    value is at most 2^53. *)
Definition parseInt (inputString : string) : num :=
  let '(sign, unsigned) := splitSign (trimStart inputString) in
  let '(R, digits) := splitPrefix unsigned in
  match leadingDigits R digits with
  | [] => NaN
  | ds => Int (sign * mathInt R ds)
  end.

Definition digitChar (d : Z) : ascii := ascii_of_nat (Z.to_nat (48 + d)).

Fixpoint decimalAux (fuel : nat) (n : Z) (acc : string) : string :=
  match fuel with
  | O => acc
  | S fuel' =>
      let acc' := String (digitChar (n mod 10)) acc in
      if n <? 10 then acc' else decimalAux fuel' (n / 10) acc'
  end.

(** The decimal digits of a non-negative integer. *)
Definition decimal (n : Z) : string :=
  decimalAux (S (Z.to_nat (Z.log2 n))) n "".

Fixpoint stripZeros (rev_digits : list ascii) : list ascii :=
  match rev_digits with
  | c :: rest => if Ascii.eqb c "0" then stripZeros rest else rev_digits
  | [] => []
  end.

(** The digits of [n] with the trailing zeros removed. *)
Definition significand (n : Z) : list ascii :=
  rev (stripZeros (rev (list_ascii_of_string (decimal n)))).

(** Number::toString for a positive integer: plain digits below 10^21,
    exponent notation from there on.  For an integer up to 2^53, and for
    10^21, these are the digits JavaScript writes. *)
Definition positiveToString (n : Z) : string :=
  if n <? 10 ^ 21 then decimal n
  else
    let e := Z.of_nat (String.length (decimal n)) - 1 in
    match significand n with
    | [] => decimal n
    | [d] => String d ("e+" ++ decimal e)
    | d :: ds => String d ("." ++ string_of_list_ascii ds ++ "e+" ++ decimal e)
    end.

Definition toString (x : num) : string :=
  match x with
  | NaN => "NaN"
  | Int 0 => "0"
  | Int (Zpos p) => positiveToString (Zpos p)
  | Int (Zneg p) => "-" ++ positiveToString (Zpos p)
  end.

End JS.

(** ** The browser: DOM nodes, timers, storage, random numbers *)

(** A DOM node, as far as the game writes to it. *)
Record Element := {
  textContent : string;
  classList : gset string;
  style : gmap string string;
  disabled : bool
}.

Definition setText (t : string) (e : Element) : Element :=
  {| textContent := t; classList := classList e; style := style e;
     disabled := disabled e |}.

Definition setClassName (tokens : gset string) (e : Element) : Element :=
  {| textContent := textContent e; classList := tokens; style := style e;
     disabled := disabled e |}.

Definition addClass (c : string) (e : Element) : Element :=
  setClassName (classList e ∪ {[ c ]}) e.

Definition removeClass (c : string) (e : Element) : Element :=
  setClassName (classList e ∖ {[ c ]}) e.

Definition setStyle (property value : string) (e : Element) : Element :=
  {| textContent := textContent e; classList := classList e;
     style := <[ property := value ]> (style e); disabled := disabled e |}.

Definition setDisabled (b : bool) (e : Element) : Element :=
  {| textContent := textContent e; classList := classList e; style := style e;
     disabled := b |}.

(** The nodes [initializeElements] looks up; [colorButtons] is the object
    keyed by color. *)
Record Dom := {
  gameArea : Element;
  colorWord : Element;
  currentScoreEl : Element;
  highScoreEl : Element;
  timerBar : Element;
  gameOverScreen : Element;
  finalScoreEl : Element;
  highScoreMessage : Element;
  feedback : Element;
  colorButtons : gmap string Element
}.

Definition onGameArea (f : Element -> Element) (d : Dom) : Dom :=
  {| gameArea := f (gameArea d); colorWord := colorWord d;
     currentScoreEl := currentScoreEl d; highScoreEl := highScoreEl d;
     timerBar := timerBar d; gameOverScreen := gameOverScreen d;
     finalScoreEl := finalScoreEl d; highScoreMessage := highScoreMessage d;
     feedback := feedback d; colorButtons := colorButtons d |}.

Definition onColorWord (f : Element -> Element) (d : Dom) : Dom :=
  {| gameArea := gameArea d; colorWord := f (colorWord d);
     currentScoreEl := currentScoreEl d; highScoreEl := highScoreEl d;
     timerBar := timerBar d; gameOverScreen := gameOverScreen d;
     finalScoreEl := finalScoreEl d; highScoreMessage := highScoreMessage d;
     feedback := feedback d; colorButtons := colorButtons d |}.

Definition onCurrentScoreEl (f : Element -> Element) (d : Dom) : Dom :=
  {| gameArea := gameArea d; colorWord := colorWord d;
     currentScoreEl := f (currentScoreEl d); highScoreEl := highScoreEl d;
     timerBar := timerBar d; gameOverScreen := gameOverScreen d;
     finalScoreEl := finalScoreEl d; highScoreMessage := highScoreMessage d;
     feedback := feedback d; colorButtons := colorButtons d |}.

Definition onHighScoreEl (f : Element -> Element) (d : Dom) : Dom :=
  {| gameArea := gameArea d; colorWord := colorWord d;
     currentScoreEl := currentScoreEl d; highScoreEl := f (highScoreEl d);
     timerBar := timerBar d; gameOverScreen := gameOverScreen d;
     finalScoreEl := finalScoreEl d; highScoreMessage := highScoreMessage d;
     feedback := feedback d; colorButtons := colorButtons d |}.

Definition onTimerBar (f : Element -> Element) (d : Dom) : Dom :=
  {| gameArea := gameArea d; colorWord := colorWord d;
     currentScoreEl := currentScoreEl d; highScoreEl := highScoreEl d;
     timerBar := f (timerBar d); gameOverScreen := gameOverScreen d;
     finalScoreEl := finalScoreEl d; highScoreMessage := highScoreMessage d;
     feedback := feedback d; colorButtons := colorButtons d |}.

Definition onGameOverScreen (f : Element -> Element) (d : Dom) : Dom :=
  {| gameArea := gameArea d; colorWord := colorWord d;
     currentScoreEl := currentScoreEl d; highScoreEl := highScoreEl d;
     timerBar := timerBar d; gameOverScreen := f (gameOverScreen d);
     finalScoreEl := finalScoreEl d; highScoreMessage := highScoreMessage d;
     feedback := feedback d; colorButtons := colorButtons d |}.

Definition onFinalScoreEl (f : Element -> Element) (d : Dom) : Dom :=
  {| gameArea := gameArea d; colorWord := colorWord d;
     currentScoreEl := currentScoreEl d; highScoreEl := highScoreEl d;
     timerBar := timerBar d; gameOverScreen := gameOverScreen d;
     finalScoreEl := f (finalScoreEl d); highScoreMessage := highScoreMessage d;
     feedback := feedback d; colorButtons := colorButtons d |}.

Definition onHighScoreMessage (f : Element -> Element) (d : Dom) : Dom :=
  {| gameArea := gameArea d; colorWord := colorWord d;
     currentScoreEl := currentScoreEl d; highScoreEl := highScoreEl d;
     timerBar := timerBar d; gameOverScreen := gameOverScreen d;
     finalScoreEl := finalScoreEl d; highScoreMessage := f (highScoreMessage d);
     feedback := feedback d; colorButtons := colorButtons d |}.

Definition onFeedback (f : Element -> Element) (d : Dom) : Dom :=
  {| gameArea := gameArea d; colorWord := colorWord d;
     currentScoreEl := currentScoreEl d; highScoreEl := highScoreEl d;
     timerBar := timerBar d; gameOverScreen := gameOverScreen d;
     finalScoreEl := finalScoreEl d; highScoreMessage := highScoreMessage d;
     feedback := f (feedback d); colorButtons := colorButtons d |}.

(** [Object.values(this.colorButtons).forEach(f)] *)
Definition onColorButtons (f : Element -> Element) (d : Dom) : Dom :=
  {| gameArea := gameArea d; colorWord := colorWord d;
     currentScoreEl := currentScoreEl d; highScoreEl := highScoreEl d;
     timerBar := timerBar d; gameOverScreen := gameOverScreen d;
     finalScoreEl := finalScoreEl d; highScoreMessage := highScoreMessage d;
     feedback := feedback d; colorButtons := f <$> colorButtons d |}.

(** What a pending [setTimeout] will run. *)
Inductive Callback : Type :=
| AddPulse         (* updateWordDisplay: colorWord.classList.add('pulse') *)
| AnimateTimerBar  (* startTimer: start the width transition *)
| TimeUp           (* startTimer: this.handleTimeUp() *)
| NextRound        (* handleCorrectAnswer: this.startNewRound() *)
| RemoveShake      (* handleIncorrectAnswer: remove the shake class *)
| EndGame          (* handleIncorrectAnswer, handleTimeUp: this.endGame() *)
| HideFeedback.    (* showFeedback: remove the show class *)

#[global] Instance Callback_eq_dec : EqDecision Callback.
Proof. solve_decision. Defined.

Record Timer := {
  handle : nat;
  due : Z;
  callback : Callback
}.

(** The fields of the [ColorMatchGame] object that are not DOM nodes.
    [gameTimer] is [null] ([None]) or a timer handle; the round fields hold
    [undefined] ([None]) when an array is read out of range. *)
Record Game := {
  isPlaying : bool;
  currentScore : Z;
  gameTimer : option nat;
  currentTimeLimit : Z;
  minTimeLimit : Z;
  timeDecrement : Z;
  colors : list string;
  colorNames : list string;
  currentWord : option string;
  currentFontColor : option string;
  correctAnswer : option string;
  highScore : num
}.

Definition setIsPlaying (b : bool) (g : Game) : Game :=
  {| isPlaying := b; currentScore := currentScore g; gameTimer := gameTimer g;
     currentTimeLimit := currentTimeLimit g; minTimeLimit := minTimeLimit g;
     timeDecrement := timeDecrement g; colors := colors g;
     colorNames := colorNames g; currentWord := currentWord g;
     currentFontColor := currentFontColor g; correctAnswer := correctAnswer g;
     highScore := highScore g |}.

Definition setCurrentScore (n : Z) (g : Game) : Game :=
  {| isPlaying := isPlaying g; currentScore := n; gameTimer := gameTimer g;
     currentTimeLimit := currentTimeLimit g; minTimeLimit := minTimeLimit g;
     timeDecrement := timeDecrement g; colors := colors g;
     colorNames := colorNames g; currentWord := currentWord g;
     currentFontColor := currentFontColor g; correctAnswer := correctAnswer g;
     highScore := highScore g |}.

Definition setGameTimer (h : option nat) (g : Game) : Game :=
  {| isPlaying := isPlaying g; currentScore := currentScore g; gameTimer := h;
     currentTimeLimit := currentTimeLimit g; minTimeLimit := minTimeLimit g;
     timeDecrement := timeDecrement g; colors := colors g;
     colorNames := colorNames g; currentWord := currentWord g;
     currentFontColor := currentFontColor g; correctAnswer := correctAnswer g;
     highScore := highScore g |}.

Definition setCurrentTimeLimit (ms : Z) (g : Game) : Game :=
  {| isPlaying := isPlaying g; currentScore := currentScore g;
     gameTimer := gameTimer g; currentTimeLimit := ms;
     minTimeLimit := minTimeLimit g; timeDecrement := timeDecrement g;
     colors := colors g; colorNames := colorNames g;
     currentWord := currentWord g; currentFontColor := currentFontColor g;
     correctAnswer := correctAnswer g; highScore := highScore g |}.

Definition setCurrentWord (v : option string) (g : Game) : Game :=
  {| isPlaying := isPlaying g; currentScore := currentScore g;
     gameTimer := gameTimer g; currentTimeLimit := currentTimeLimit g;
     minTimeLimit := minTimeLimit g; timeDecrement := timeDecrement g;
     colors := colors g; colorNames := colorNames g; currentWord := v;
     currentFontColor := currentFontColor g; correctAnswer := correctAnswer g;
     highScore := highScore g |}.

Definition setCurrentFontColor (v : option string) (g : Game) : Game :=
  {| isPlaying := isPlaying g; currentScore := currentScore g;
     gameTimer := gameTimer g; currentTimeLimit := currentTimeLimit g;
     minTimeLimit := minTimeLimit g; timeDecrement := timeDecrement g;
     colors := colors g; colorNames := colorNames g;
     currentWord := currentWord g; currentFontColor := v;
     correctAnswer := correctAnswer g; highScore := highScore g |}.

Definition setCorrectAnswer (v : option string) (g : Game) : Game :=
  {| isPlaying := isPlaying g; currentScore := currentScore g;
     gameTimer := gameTimer g; currentTimeLimit := currentTimeLimit g;
     minTimeLimit := minTimeLimit g; timeDecrement := timeDecrement g;
     colors := colors g; colorNames := colorNames g;
     currentWord := currentWord g; currentFontColor := currentFontColor g;
     correctAnswer := v; highScore := highScore g |}.

Definition setHighScore (n : num) (g : Game) : Game :=
  {| isPlaying := isPlaying g; currentScore := currentScore g;
     gameTimer := gameTimer g; currentTimeLimit := currentTimeLimit g;
     minTimeLimit := minTimeLimit g; timeDecrement := timeDecrement g;
     colors := colors g; colorNames := colorNames g;
     currentWord := currentWord g; currentFontColor := currentFontColor g;
     correctAnswer := correctAnswer g; highScore := n |}.

(** The game object together with the browser around it.  [timers] are the
    pending timeouts, [nextHandle] the handle the next [setTimeout] returns,
    [now] the clock in milliseconds, [random] and [cursor] the values
    [Math.random()] has yet to return. *)
Record World := {
  this : Game;
  dom : Dom;
  localStorage : gmap string string;
  timers : list Timer;
  nextHandle : nat;
  now : Z;
  random : nat -> Q;
  cursor : nat
}.

Definition onThis (f : Game -> Game) (w : World) : World :=
  {| this := f (this w); dom := dom w; localStorage := localStorage w;
     timers := timers w; nextHandle := nextHandle w; now := now w;
     random := random w; cursor := cursor w |}.

Definition onDom (f : Dom -> Dom) (w : World) : World :=
  {| this := this w; dom := f (dom w); localStorage := localStorage w;
     timers := timers w; nextHandle := nextHandle w; now := now w;
     random := random w; cursor := cursor w |}.

Definition setItem (key value : string) (w : World) : World :=
  {| this := this w; dom := dom w;
     localStorage := <[ key := value ]> (localStorage w);
     timers := timers w; nextHandle := nextHandle w; now := now w;
     random := random w; cursor := cursor w |}.

Definition setTimers (ts : list Timer) (w : World) : World :=
  {| this := this w; dom := dom w; localStorage := localStorage w;
     timers := ts; nextHandle := nextHandle w; now := now w;
     random := random w; cursor := cursor w |}.

Definition setNow (t : Z) (w : World) : World :=
  {| this := this w; dom := dom w; localStorage := localStorage w;
     timers := timers w; nextHandle := nextHandle w; now := t;
     random := random w; cursor := cursor w |}.

(** [setTimeout(cb, delay)]: the timer is due [delay] ms from now; the
    handle is returned. *)
Definition setTimeout (cb : Callback) (delay : Z) (w : World) : nat * World :=
  (nextHandle w,
   {| this := this w; dom := dom w; localStorage := localStorage w;
      timers := timers w ++
        [{| handle := nextHandle w; due := now w + delay; callback := cb |}];
      nextHandle := S (nextHandle w); now := now w;
      random := random w; cursor := cursor w |}).

(** [clearTimeout(h)]: nothing happens for [null] or for a handle that is
    no longer pending. *)
Definition clearTimeout (h : option nat) (w : World) : World :=
  setTimers
    match h with
    | None => timers w
    | Some n => filter (fun t => handle t ≠ n) (timers w)
    end w.

(** [Math.random()] *)
Definition Math_random (w : World) : Q * World :=
  (random w (cursor w),
   {| this := this w; dom := dom w; localStorage := localStorage w;
      timers := timers w; nextHandle := nextHandle w; now := now w;
      random := random w; cursor := S (cursor w) |}).

(** [Math.floor(r * n)] for an array length [n]. *)
Definition floorTimes (r : Q) (n : nat) : Z :=
  Qfloor (Qmult r (inject_Z (Z.of_nat n))).

(** [array[i]]: [undefined] outside the array. *)
Definition at_index {A} (l : list A) (i : Z) : option A :=
  if i <? 0 then None else l !! Z.to_nat i.

(** ** class ColorMatchGame *)

(** A string is truthy unless it is empty. *)
Definition truthy (s : string) : bool := negb (String.eqb s "").

(** What assigning a possibly [undefined] value to [textContent] shows. *)
Definition domString (v : option string) : string := default "" v.

Definition updateHighScoreDisplay (w : World) : World :=
  onDom (onHighScoreEl (setText (JS.toString (highScore (this w))))) w.

Definition updateCurrentScoreDisplay (w : World) : World :=
  onDom (onCurrentScoreEl (setText (JS.toString (Int (currentScore (this w)))))) w.

Definition loadHighScore (w : World) : World :=
  let savedHighScore := localStorage w !! "colorMatchHighScore" in
  let w :=
    onThis (setHighScore
              match savedHighScore with
              | Some s => if truthy s then JS.parseInt s else Int 0
              | None => Int 0
              end) w in
  updateHighScoreDisplay w.

Definition saveHighScore (w : World) : World :=
  setItem "colorMatchHighScore" (JS.toString (highScore (this w))) w.

(** The object as the constructor leaves it, in a page [page] with storage
    [storage]; [highScore] is assigned by [loadHighScore]. *)
Definition constructor (page : Dom) (storage : gmap string string)
    (rnd : nat -> Q) : World :=
  let w :=
    {| this :=
         {| isPlaying := false; currentScore := 0; gameTimer := None;
            currentTimeLimit := 3000; minTimeLimit := 800;
            timeDecrement := 100;
            colors := ["red"; "blue"; "green"; "yellow"];
            colorNames := ["RED"; "BLUE"; "GREEN"; "YELLOW"];
            currentWord := Some ""; currentFontColor := Some "";
            correctAnswer := Some ""; highScore := NaN |};
       dom := page; localStorage := storage; timers := []; nextHandle := 1;
       now := 0; random := rnd; cursor := 0 |} in
  loadHighScore w.

(** The [do ... while (fontColorIndex === wordIndex)] loop: the index drawn
    and the world after the draws, or [None] when [fuel] draws were all
    equal to [wordIndex]. *)
Fixpoint drawFontColorIndex (fuel : nat) (wordIndex : Z) (w : World)
    : option (Z * World) :=
  match fuel with
  | O => None
  | S fuel' =>
      let '(r, w) := Math_random w in
      let fontColorIndex := floorTimes r (length (colors (this w))) in
      if fontColorIndex =? wordIndex
      then drawFontColorIndex fuel' wordIndex w
      else Some (fontColorIndex, w)
  end.

Definition generateRoundData (fuel : nat) (w : World) : option World :=
  let '(r, w) := Math_random w in
  let wordIndex := floorTimes r (length (colorNames (this w))) in
  let w := onThis (setCurrentWord (at_index (colorNames (this w)) wordIndex)) w in
  match drawFontColorIndex fuel wordIndex w with
  | None => None
  | Some (fontColorIndex, w) =>
      let w :=
        onThis (setCurrentFontColor (at_index (colors (this w)) fontColorIndex)) w in
      Some (onThis (setCorrectAnswer (currentFontColor (this w))) w)
  end.

Definition updateWordDisplay (w : World) : World :=
  let w := onDom (onColorWord (setText (domString (currentWord (this w))))) w in
  let w :=
    match currentFontColor (this w) with
    | Some c => onDom (onColorWord (setStyle "color" c)) w
    | None => w
    end in
  let w := onDom (onColorWord (removeClass "pulse")) w in
  snd (setTimeout AddPulse 10 w).

Definition enableColorButtons (w : World) : World :=
  onDom (onColorButtons
           (fun button => setDisabled false (removeClass "disabled" button))) w.

Definition disableColorButtons (w : World) : World :=
  onDom (onColorButtons
           (fun button => setDisabled true (addClass "disabled" button))) w.

Definition startTimer (w : World) : World :=
  let w := onDom (onTimerBar (setStyle "transition" "none")) w in
  let w := onDom (onTimerBar (setStyle "width" "100%")) w in
  let w := snd (setTimeout AnimateTimerBar 50 w) in
  let '(h, w) := setTimeout TimeUp (currentTimeLimit (this w)) w in
  onThis (setGameTimer (Some h)) w.

Definition startNewRound (fuel : nat) (w : World) : option World :=
  if negb (isPlaying (this w)) then Some w
  else
    match generateRoundData fuel w with
    | None => None
    | Some w => Some (startTimer (enableColorButtons (updateWordDisplay w)))
    end.

Definition startGame (fuel : nat) (w : World) : option World :=
  let w := onThis (setIsPlaying true) w in
  let w := onThis (setCurrentScore 0) w in
  let w := onThis (setCurrentTimeLimit 3000) w in
  let w := onDom (onGameArea (addClass "playing")) w in
  let w := onDom (onGameOverScreen (setStyle "display" "none")) w in
  let w := updateCurrentScoreDisplay w in
  startNewRound fuel w.

Definition showFeedback (message type : string) (w : World) : World :=
  let w := onDom (onFeedback (setText message)) w in
  let w :=
    onDom (onFeedback (setClassName ({[ "feedback" ]} ∪ {[ type ]} ∪ {[ "show" ]}))) w in
  snd (setTimeout HideFeedback 1000 w).

Definition handleCorrectAnswer (w : World) : World :=
  let w := onThis (setCurrentScore (currentScore (this w) + 10)) w in
  let w := updateCurrentScoreDisplay w in
  let w := showFeedback "Correct!" "correct" w in
  let w :=
    onThis (setCurrentTimeLimit
              (Z.max (minTimeLimit (this w))
                     (currentTimeLimit (this w) - timeDecrement (this w)))) w in
  snd (setTimeout NextRound 1000 w).

Definition handleIncorrectAnswer (w : World) : World :=
  let w := showFeedback "Wrong!" "incorrect" w in
  let w := onDom (onGameArea (addClass "shake")) w in
  let w := snd (setTimeout RemoveShake 500 w) in
  snd (setTimeout EndGame 1500 w).

Definition handleTimeUp (w : World) : World :=
  let w := showFeedback "Time's Up!" "incorrect" w in
  let w := disableColorButtons w in
  snd (setTimeout EndGame 1500 w).

Definition handleColorClick (selectedColor : string) (w : World) : World :=
  if negb (isPlaying (this w)) then w
  else
    let w := clearTimeout (gameTimer (this w)) w in
    let w := disableColorButtons w in
    if bool_decide (correctAnswer (this w) = Some selectedColor)
    then handleCorrectAnswer w
    else handleIncorrectAnswer w.

Definition showGameOverScreen (isNewHighScore : bool) (w : World) : World :=
  let w :=
    onDom (onFinalScoreEl (setText (JS.toString (Int (currentScore (this w)))))) w in
  let w :=
    if isNewHighScore
    then onDom (onHighScoreMessage (setStyle "display" "block")) w
    else onDom (onHighScoreMessage (setStyle "display" "none")) w in
  onDom (onGameOverScreen (setStyle "display" "flex")) w.

Definition endGame (w : World) : World :=
  let w := onThis (setIsPlaying false) w in
  let w := clearTimeout (gameTimer (this w)) w in
  let w := onDom (onGameArea (removeClass "playing")) w in
  if gt_num (currentScore (this w)) (highScore (this w))
  then
    let w := onThis (setHighScore (Int (currentScore (this w)))) w in
    let w := saveHighScore w in
    let w := updateHighScoreDisplay w in
    showGameOverScreen true w
  else showGameOverScreen false w.

Definition exitGame (w : World) : World :=
  if negb (isPlaying (this w)) then w
  else
    let w := onThis (setIsPlaying false) w in
    let w := clearTimeout (gameTimer (this w)) w in
    let w := onDom (onGameArea (removeClass "playing")) w in
    let w := onDom (onColorWord (setText "READY?")) w in
    let w := onDom (onColorWord (setStyle "color" "#333")) w in
    let w := onDom (onTimerBar (setStyle "width" "100%")) w in
    let w := onDom (onTimerBar (setStyle "transition" "none")) w in
    let w := onThis (setCurrentScore 0) w in
    let w := updateCurrentScoreDisplay w in
    showFeedback "Game Exited" "incorrect" w.

Definition returnToMainMenu (w : World) : World :=
  let w := onDom (onGameOverScreen (setStyle "display" "none")) w in
  let w := onDom (onColorWord (setText "READY?")) w in
  let w := onDom (onColorWord (setStyle "color" "#333")) w in
  let w := onDom (onTimerBar (setStyle "width" "100%")) w in
  let w := onDom (onTimerBar (setStyle "transition" "none")) w in
  let w := onThis (setCurrentScore 0) w in
  let w := updateCurrentScoreDisplay w in
  let w := onThis (setIsPlaying false) w in
  onDom (onGameArea (removeClass "playing")) w.

Definition restartGame (fuel : nat) (w : World) : option World :=
  let w := onDom (onGameOverScreen (setStyle "display" "none")) w in
  startGame fuel w.

(** The own properties of the object literal of [handleKeyPress]; every
    value is a non-empty string, so a key that is present is truthy. *)
Definition keyMap : gmap string string :=
  list_to_map
    [("KeyR", "red"); ("Digit1", "red"); ("KeyB", "blue"); ("Digit2", "blue");
     ("KeyG", "green"); ("Digit3", "green"); ("KeyY", "yellow");
     ("Digit4", "yellow")].

(** [keyMap[event.code]] is a property read on an object literal: a name
    that is not an own property is looked up on [Object.prototype].  These
    are the names found there; each holds a function (or, for [__proto__],
    the prototype object), which is truthy and is no string. *)
Definition objectPrototype : list string :=
  ["constructor"; "hasOwnProperty"; "isPrototypeOf"; "propertyIsEnumerable";
   "toLocaleString"; "toString"; "valueOf"; "__proto__";
   "__defineGetter__"; "__defineSetter__"; "__lookupGetter__";
   "__lookupSetter__"].

(** [handleColorClick] called with a value that is no string: the strict
    comparison with [correctAnswer] (a string, [null] or [undefined]) is
    false, so the answer is handled as a wrong one. *)
Definition handleColorClickObject (w : World) : World :=
  if negb (isPlaying (this w)) then w
  else
    let w := clearTimeout (gameTimer (this w)) w in
    let w := disableColorButtons w in
    handleIncorrectAnswer w.

Definition handleKeyPress (fuel : nat) (code : string) (w : World)
    : option World :=
  if negb (isPlaying (this w)) then
    if String.eqb code "Space" || String.eqb code "Enter" then
      if negb (isPlaying (this w)) then startGame fuel w else Some w
    else Some w
  else
    let w :=
      match keyMap !! code with
      | Some color => handleColorClick color w
      | None =>
          if bool_decide (code ∈ objectPrototype)
          then handleColorClickObject w
          else w
      end in
    let w := if String.eqb code "Escape" then exitGame w else w in
    Some w.

(** ** Events *)

Inductive Button : Type :=
| StartBtn
| ExitBtn
| RestartBtn
| MenuBtn
| ColorBtn (color : string).

Inductive UserEvent : Type :=
| Click (target : Button)
| KeyDown (code : string).

(** The listeners of [setupEventListeners].  A disabled button receives no
    click; the page decides which of the other buttons can be reached, and
    nothing is assumed about that here. *)
Definition dispatch (fuel : nat) (e : UserEvent) (w : World) : option World :=
  match e with
  | Click StartBtn => startGame fuel w
  | Click ExitBtn => Some (exitGame w)
  | Click RestartBtn => restartGame fuel w
  | Click MenuBtn => Some (returnToMainMenu w)
  | Click (ColorBtn color) =>
      match colorButtons (dom w) !! color with
      | Some button =>
          if disabled button then Some w else Some (handleColorClick color w)
      | None => Some w
      end
  | KeyDown code => handleKeyPress fuel code w
  end.

(** The arrow functions handed to [setTimeout]. *)
Definition runCallback (fuel : nat) (cb : Callback) (w : World) : option World :=
  match cb with
  | AddPulse => Some (onDom (onColorWord (addClass "pulse")) w)
  | AnimateTimerBar =>
      let w :=
        onDom (onTimerBar
                 (setStyle "transition"
                    ("width " ++ JS.toString (Int (currentTimeLimit (this w)))
                       ++ "ms linear"))) w in
      Some (onDom (onTimerBar (setStyle "width" "0%")) w)
  | TimeUp => Some (handleTimeUp w)
  | NextRound => startNewRound fuel w
  | RemoveShake => Some (onDom (onGameArea (removeClass "shake")) w)
  | EndGame => Some (endGame w)
  | HideFeedback => Some (onDom (onFeedback (removeClass "show")) w)
  end.

(** What happens next: the user does something at time [t], or the pending
    timer with handle [h] fires. *)
Inductive Input : Type :=
| User (t : Z) (e : UserEvent)
| Fire (h : nat).

(** One turn of the event loop.  A user event at time [t] needs every timer
    due before [t] to have fired; a timer fires at its due time, and only
    when no other pending timer is due earlier.  [None]: the input cannot
    happen now, or the fuel of the round loop ran out. *)
Definition step (fuel : nat) (w : World) (i : Input) : option World :=
  match i with
  | User t e =>
      if (now w <=? t) && forallb (fun tm => t <=? due tm) (timers w)
      then dispatch fuel e (setNow t w)
      else None
  | Fire h =>
      match List.find (fun tm => Nat.eqb (handle tm) h) (timers w) with
      | Some tm =>
          if forallb (fun other => due tm <=? due other) (timers w)
          then runCallback fuel (callback tm)
                 (setNow (Z.max (now w) (due tm)) (clearTimeout (Some h) w))
          else None
      | None => None
      end
  end.

Fixpoint run (fuel : nat) (w : World) (inputs : list Input) : option World :=
  match inputs with
  | [] => Some w
  | i :: rest =>
      match step fuel w i with
      | Some w' => run fuel w' rest
      | None => None
      end
  end.

Inductive reachable : World -> Prop :=
| reachable_constructor (page : Dom) (storage : gmap string string)
    (rnd : nat -> Q) :
    reachable (constructor page storage rnd)
| reachable_step (fuel : nat) (w w' : World) (i : Input) :
    reachable w -> step fuel w i = Some w' -> reachable w'.

(** The dues of the pending timers that will run [cb]. *)
Definition scheduled (cb : Callback) (w : World) : list Z :=
  due <$> filter (fun tm => callback tm = cb) (timers w).

(** The round countdown is running: the timer [gameTimer] names is pending. *)
Definition countdownPending (w : World) : bool :=
  match gameTimer (this w) with
  | Some h => existsb (fun tm => Nat.eqb (handle tm) h) (timers w)
  | None => false
  end.

(** ** A page and a random sequence to run the game on *)

Definition blankElement : Element :=
  {| textContent := ""; classList := ∅; style := ∅; disabled := false |}.

Definition blankPage : Dom :=
  {| gameArea := blankElement; colorWord := blankElement;
     currentScoreEl := blankElement; highScoreEl := blankElement;
     timerBar := blankElement; gameOverScreen := blankElement;
     finalScoreEl := blankElement; highScoreMessage := blankElement;
     feedback := blankElement;
     colorButtons :=
       list_to_map
         [("red", blankElement); ("blue", blankElement);
          ("green", blankElement); ("yellow", blankElement)] |}.

(** [Math.random()] returns 0, 1/4, 0, 1/4, ...: in every round the word is
    RED and the font color blue. *)
Definition redThenBlue (n : nat) : Q :=
  if Nat.even n then 0%Q else (1 # 4)%Q.

(** [Math.random()] returns 0 every time. *)
Definition alwaysZero (n : nat) : Q := 0%Q.

(** ** The session fields and how one turn of the event loop changes them *)

(** The part of the state that scoring is about: the fields [isPlaying],
    [currentScore], [currentTimeLimit], [highScore] and the stored item. *)
Record Session := {
  playing : bool;
  score : Z;
  timeLimit : Z;
  best : num;
  saved : option string
}.

Definition session (w : World) : Session :=
  {| playing := isPlaying (this w); score := currentScore (this w);
     timeLimit := currentTimeLimit (this w); best := highScore (this w);
     saved := localStorage w !! "colorMatchHighScore" |}.

Definition afterStart (s : Session) : Session :=
  {| playing := true; score := 0; timeLimit := 3000; best := best s;
     saved := saved s |}.

Definition afterCorrect (s : Session) : Session :=
  {| playing := playing s; score := score s + 10;
     timeLimit := Z.max 800 (timeLimit s - 100); best := best s;
     saved := saved s |}.

Definition afterLeave (s : Session) : Session :=
  {| playing := false; score := 0; timeLimit := timeLimit s; best := best s;
     saved := saved s |}.

Definition afterEnd (s : Session) : Session :=
  if gt_num (score s) (best s)
  then {| playing := false; score := score s; timeLimit := timeLimit s;
          best := Int (score s);
          saved := Some (JS.toString (Int (score s))) |}
  else {| playing := false; score := score s; timeLimit := timeLimit s;
          best := best s; saved := saved s |}.

(** The fields the constructor sets once and for all. *)
Definition constants (g : Game) : Prop :=
  minTimeLimit g = 800 /\ timeDecrement g = 100 /\
  colors g = ["red"; "blue"; "green"; "yellow"] /\
  colorNames g = ["RED"; "BLUE"; "GREEN"; "YELLOW"].

(** The color an input answers with, if it reaches [handleColorClick] with
    a color; a key code found on [Object.prototype] answers with none. *)
Definition answer (w : World) (i : Input) : option string :=
  match i with
  | User _ (Click (ColorBtn color)) =>
      match colorButtons (dom w) !! color with
      | Some button => if disabled button then None else Some color
      | None => None
      end
  | User _ (KeyDown code) => keyMap !! code
  | _ => None
  end.

(** The input is an answer, given while playing, that names the font color. *)
Definition answersCorrectly (w : World) (i : Input) : bool :=
  isPlaying (this w) &&
  match answer w i with
  | Some color => bool_decide (correctAnswer (this w) = Some color)
  | None => false
  end.

(** The input calls [startGame]. *)
Definition startsGame (w : World) (i : Input) : bool :=
  match i with
  | User _ (Click StartBtn) | User _ (Click RestartBtn) => true
  | User _ (KeyDown code) =>
      negb (isPlaying (this w)) &&
      (String.eqb code "Space" || String.eqb code "Enter")
  | _ => false
  end.

(** *** Projections through the browser operations *)

Arguments JS.toString : simpl never.
Arguments JS.parseInt : simpl never.

(** Reduce the projections of the world and of the game object through the
    record updates, leaving everything else folded. *)
Ltac project :=
  cbn [this dom localStorage timers nextHandle now random cursor
       onThis onDom setItem setTimers setNow clearTimeout setTimeout
       Math_random fst snd negb andb
       isPlaying currentScore gameTimer currentTimeLimit minTimeLimit
       timeDecrement colors colorNames currentWord currentFontColor
       correctAnswer highScore
       setIsPlaying setCurrentScore setGameTimer setCurrentTimeLimit
       setCurrentWord setCurrentFontColor setCorrectAnswer setHighScore
       playing score timeLimit best saved] in *.

Lemma drawFontColorIndex_spec fuel wordIndex w fontColorIndex w' :
  drawFontColorIndex fuel wordIndex w = Some (fontColorIndex, w') ->
  fontColorIndex <> wordIndex /\
  this w' = this w /\ dom w' = dom w /\ localStorage w' = localStorage w /\
  timers w' = timers w /\ nextHandle w' = nextHandle w /\ now w' = now w /\
  random w' = random w /\ (cursor w < cursor w' <= cursor w + fuel)%nat /\
  fontColorIndex =
    floorTimes (random w (pred (cursor w'))) (length (colors (this w))).
Proof.
  revert w. induction fuel as [|fuel IH]; intros w H; [discriminate|].
  cbn [drawFontColorIndex] in H. unfold Math_random in H. cbn [this] in H.
  destruct (Z.eqb_spec
              (floorTimes (random w (cursor w)) (length (colors (this w))))
              wordIndex) as [Heq|Hne].
  - apply IH in H. cbn in H. destruct H as (? & ? & ? & ? & ? & ? & ? & ? & ? & ?).
    repeat split; try assumption; lia.
  - injection H as <- <-. cbn. repeat split; try assumption; try reflexivity; lia.
Qed.

Lemma generateRoundData_this fuel w w' :
  generateRoundData fuel w = Some w' ->
  exists word font,
    this w' = setCorrectAnswer font (setCurrentFontColor font
                (setCurrentWord word (this w))) /\
    localStorage w' = localStorage w /\ dom w' = dom w /\
    timers w' = timers w /\ now w' = now w.
Proof.
  unfold generateRoundData, Math_random. intros H.
  destruct drawFontColorIndex as [[i w1]|] eqn:Hd; [|discriminate].
  injection H as <-. apply drawFontColorIndex_spec in Hd. cbn in Hd.
  destruct Hd as (_ & Ht & Hdom & Hs & Htm & _ & Hnow & _).
  do 2 eexists. cbn. rewrite Ht, Hdom, Hs, Htm, Hnow. cbn. repeat split.
Qed.

(** *** The effect of each method on the session fields *)

Definition fixed (g : Game) : Z * Z * list string * list string :=
  (minTimeLimit g, timeDecrement g, colors g, colorNames g).

Lemma constants_fixed g g' : fixed g' = fixed g -> constants g -> constants g'.
Proof.
  unfold fixed, constants. intros H (? & ? & ? & ?).
  injection H as -> -> -> ->. auto.
Qed.

Lemma updateWordDisplay_this w :
  this (updateWordDisplay w) = this w /\
  localStorage (updateWordDisplay w) = localStorage w /\
  nextHandle (updateWordDisplay w) = S (nextHandle w) /\
  now (updateWordDisplay w) = now w.
Proof.
  unfold updateWordDisplay. cbn [this onDom].
  destruct (currentFontColor (this w)); repeat split.
Qed.

Lemma showRound_this w :
  let w' := startTimer (enableColorButtons (updateWordDisplay w)) in
  this w' = setGameTimer (Some (S (S (nextHandle w)))) (this w) /\
  localStorage w' = localStorage w.
Proof.
  unfold updateWordDisplay. cbn [this onDom].
  destruct (currentFontColor (this w)); split; reflexivity.
Qed.

Lemma startNewRound_session fuel w w' :
  startNewRound fuel w = Some w' ->
  session w' = session w /\ fixed (this w') = fixed (this w).
Proof.
  unfold startNewRound. destruct (isPlaying (this w)); cbn [negb].
  - destruct generateRoundData as [w1|] eqn:Hg; [|discriminate].
    intros [= <-]. apply generateRoundData_this in Hg.
    destruct Hg as (word & font & Ht & Hs & _).
    destruct (showRound_this w1) as [Ht' Hs'].
    unfold session, fixed. rewrite Ht', Hs', Ht, Hs. split; reflexivity.
  - intros [= <-]. split; reflexivity.
Qed.

Lemma startGame_session fuel w w' :
  startGame fuel w = Some w' ->
  session w' = afterStart (session w) /\ fixed (this w') = fixed (this w).
Proof.
  unfold startGame. intros H. apply startNewRound_session in H.
  destruct H as [-> ->]. split; reflexivity.
Qed.

Lemma restartGame_session fuel w w' :
  restartGame fuel w = Some w' ->
  session w' = afterStart (session w) /\ fixed (this w') = fixed (this w).
Proof.
  unfold restartGame. intros H. apply startGame_session in H.
  destruct H as [-> ->]. split; reflexivity.
Qed.

Lemma handleCorrectAnswer_session w :
  constants (this w) ->
  session (handleCorrectAnswer w) = afterCorrect (session w) /\
  fixed (this (handleCorrectAnswer w)) = fixed (this w).
Proof.
  intros (Hmin & Hdec & _). split; [|reflexivity].
  unfold session, afterCorrect, handleCorrectAnswer. cbn.
  rewrite Hmin, Hdec. reflexivity.
Qed.

Lemma handleIncorrectAnswer_this w :
  this (handleIncorrectAnswer w) = this w /\
  localStorage (handleIncorrectAnswer w) = localStorage w.
Proof. split; reflexivity. Qed.

Lemma handleTimeUp_this w :
  this (handleTimeUp w) = this w /\
  localStorage (handleTimeUp w) = localStorage w.
Proof. split; reflexivity. Qed.

Lemma handleColorClick_session color w :
  constants (this w) ->
  fixed (this (handleColorClick color w)) = fixed (this w) /\
  session (handleColorClick color w) =
    if isPlaying (this w) &&
       bool_decide (correctAnswer (this w) = Some color)
    then afterCorrect (session w) else session w.
Proof.
  intros Hc. unfold handleColorClick.
  destruct (isPlaying (this w)) eqn:Hp; cbn [negb andb]; [|split; reflexivity].
  set (w1 := disableColorButtons (clearTimeout (gameTimer (this w)) w)).
  change (correctAnswer (this w1)) with (correctAnswer (this w)).
  case_bool_decide.
  - destruct (handleCorrectAnswer_session w1) as [-> ->]; auto.
  - split; reflexivity.
Qed.

Lemma endGame_session w :
  session (endGame w) = afterEnd (session w) /\
  fixed (this (endGame w)) = fixed (this w).
Proof.
  unfold endGame, afterEnd, session. project.
  destruct (gt_num (currentScore (this w)) (highScore (this w)));
    split; try reflexivity.
  unfold showGameOverScreen, updateHighScoreDisplay, saveHighScore. project.
  rewrite lookup_insert_eq. reflexivity.
Qed.

Lemma exitGame_session w :
  session (exitGame w) =
    (if isPlaying (this w) then afterLeave (session w) else session w) /\
  fixed (this (exitGame w)) = fixed (this w).
Proof.
  unfold exitGame. destruct (isPlaying (this w)) eqn:Hp; cbn [negb];
    [|split; reflexivity].
  split; reflexivity.
Qed.

Lemma returnToMainMenu_session w :
  session (returnToMainMenu w) = afterLeave (session w) /\
  fixed (this (returnToMainMenu w)) = fixed (this w).
Proof. split; reflexivity. Qed.

(** *** The effect of one turn of the event loop *)

Definition stepEffect (w : World) (i : Input) (w' : World) : Prop :=
  fixed (this w') = fixed (this w) /\
  if startsGame w i then session w' = afterStart (session w)
  else if answersCorrectly w i then session w' = afterCorrect (session w)
  else session w' = session w \/
       session w' = afterLeave (session w) \/
       session w' = afterEnd (session w).

Lemma keyMap_Escape : keyMap !! "Escape" = None.
Proof. vm_compute. reflexivity. Qed.

Lemma handleColorClickObject_wrong w :
  exists color,
    correctAnswer (this w) <> Some color /\
    handleColorClickObject w = handleColorClick color w.
Proof.
  assert (exists color, correctAnswer (this w) <> Some color) as [color H].
  { destruct (correctAnswer (this w)) as [s|]; [|exists ""; discriminate].
    destruct (decide (s = "")) as [->|Hs].
    - exists "x". discriminate.
    - exists "". intros [= E]. contradiction. }
  exists color. split; [exact H|].
  unfold handleColorClickObject, handleColorClick.
  destruct (negb (isPlaying (this w))); [reflexivity|].
  change (correctAnswer (this (disableColorButtons
            (clearTimeout (gameTimer (this w)) w))))
    with (correctAnswer (this w)).
  rewrite (bool_decide_eq_false_2 _ H). reflexivity.
Qed.

Lemma handleKeyPress_playing fuel code w :
  isPlaying (this w) = true ->
  handleKeyPress fuel code w =
    Some match keyMap !! code with
         | Some color => handleColorClick color w
         | None =>
             if bool_decide (code ∈ objectPrototype)
             then handleColorClickObject w
             else if String.eqb code "Escape" then exitGame w else w
         end.
Proof.
  intros Hp. unfold handleKeyPress. rewrite Hp. cbn [negb].
  destruct (String.eqb_spec code "Escape") as [->|_].
  - rewrite keyMap_Escape. reflexivity.
  - destruct (keyMap !! code); [reflexivity|].
    destruct (bool_decide (code ∈ objectPrototype)); reflexivity.
Qed.

Lemma handleKeyPress_idle fuel code w :
  isPlaying (this w) = false ->
  handleKeyPress fuel code w =
    if String.eqb code "Space" || String.eqb code "Enter"
    then startGame fuel w else Some w.
Proof.
  intros Hp. unfold handleKeyPress. rewrite Hp. reflexivity.
Qed.

Lemma click_start_effect fuel t w w' :
  startGame fuel w = Some w' -> stepEffect w (User t (Click StartBtn)) w'.
Proof.
  intros H. unfold stepEffect. cbn [startsGame].
  apply startGame_session in H. destruct H; auto.
Qed.

Lemma click_restart_effect fuel t w w' :
  restartGame fuel w = Some w' -> stepEffect w (User t (Click RestartBtn)) w'.
Proof.
  intros H. unfold stepEffect. cbn [startsGame].
  apply restartGame_session in H. destruct H; auto.
Qed.

Lemma click_exit_effect t w : stepEffect w (User t (Click ExitBtn)) (exitGame w).
Proof.
  unfold stepEffect, answersCorrectly. cbn [startsGame answer].
  rewrite andb_false_r.
  destruct (exitGame_session w) as [Hs Hf]. rewrite Hs, Hf.
  destruct (isPlaying (this w)); auto.
Qed.

Lemma click_menu_effect t w :
  stepEffect w (User t (Click MenuBtn)) (returnToMainMenu w).
Proof.
  unfold stepEffect, answersCorrectly. cbn [startsGame answer].
  rewrite andb_false_r.
  destruct (returnToMainMenu_session w) as [Hs Hf]. rewrite Hs, Hf. auto.
Qed.

Lemma click_color_effect fuel t color w w' :
  constants (this w) ->
  dispatch fuel (Click (ColorBtn color)) w = Some w' ->
  stepEffect w (User t (Click (ColorBtn color))) w'.
Proof.
  intros Hc H. unfold stepEffect, answersCorrectly.
  cbn [dispatch startsGame answer] in *.
  destruct (colorButtons (dom w) !! color) as [button|];
    [destruct (disabled button)|]; injection H as <-;
    rewrite ?andb_false_r; auto.
  destruct (handleColorClick_session color w Hc) as [Hf Hs].
  rewrite Hs, Hf. split; [reflexivity|]. destruct (_ && _); auto.
Qed.

Lemma keydown_effect fuel t code w w' :
  constants (this w) ->
  handleKeyPress fuel code w = Some w' ->
  stepEffect w (User t (KeyDown code)) w'.
Proof.
  intros Hc H. unfold stepEffect, answersCorrectly.
  cbn [startsGame answer].
  destruct (isPlaying (this w)) eqn:Hp.
  - rewrite (handleKeyPress_playing fuel code w Hp) in H.
    cbn [negb andb]. generalize dependent (keyMap !! code).
    intros [color|] H; injection H as <-.
    + destruct (handleColorClick_session color w Hc) as [Hf Hs].
      rewrite Hs, Hf, Hp. cbn [andb]. split; [reflexivity|].
      destruct (bool_decide _); auto.
    + destruct (bool_decide (code ∈ objectPrototype)).
      * destruct (handleColorClickObject_wrong w) as (color & Hne & ->).
        destruct (handleColorClick_session color w Hc) as [Hf Hs].
        rewrite Hs, Hf, Hp, (bool_decide_eq_false_2 _ Hne). auto.
      * destruct (String.eqb code "Escape"); auto.
        destruct (exitGame_session w) as [Hs Hf]. rewrite Hs, Hf, Hp. auto.
  - rewrite (handleKeyPress_idle fuel code w Hp) in H. cbn [negb andb].
    destruct (String.eqb code "Space" || String.eqb code "Enter").
    + apply startGame_session in H. destruct H; auto.
    + injection H as <-. auto.
Qed.

Lemma dispatch_effect fuel e t w w' :
  constants (this w) ->
  dispatch fuel e w = Some w' -> stepEffect w (User t e) w'.
Proof.
  intros Hc. destruct e as [[| | | |color]|code]; cbn [dispatch]; intros H.
  - exact (click_start_effect fuel t w w' H).
  - injection H as <-. apply click_exit_effect.
  - exact (click_restart_effect fuel t w w' H).
  - injection H as <-. apply click_menu_effect.
  - exact (click_color_effect fuel t color w w' Hc H).
  - exact (keydown_effect fuel t code w w' Hc H).
Qed.

Lemma runCallback_effect fuel cb h w w' :
  runCallback fuel cb w = Some w' -> stepEffect w (Fire h) w'.
Proof.
  intros H. unfold stepEffect, answersCorrectly.
  cbn [startsGame answer]. rewrite andb_false_r.
  destruct cb; cbn [runCallback] in H; try (injection H as <-; auto; fail).
  - apply startNewRound_session in H. destruct H as [-> ->]. auto.
  - injection H as <-. destruct (endGame_session w) as [-> ->]. auto.
Qed.

Lemma step_effect fuel w i w' :
  constants (this w) -> step fuel w i = Some w' -> stepEffect w i w'.
Proof.
  intros Hc H. destruct i as [t e|h]; cbn [step] in H.
  - destruct (_ && _); [|discriminate].
    exact (dispatch_effect fuel e t (setNow t w) w' Hc H).
  - destruct List.find as [tm|]; [|discriminate].
    destruct forallb; [|discriminate].
    exact (runCallback_effect fuel (callback tm) h _ w' H).
Qed.

Lemma step_constants fuel w i w' :
  constants (this w) -> step fuel w i = Some w' -> constants (this w').
Proof.
  intros Hc H. destruct (step_effect _ _ _ _ Hc H) as [Hf _].
  exact (constants_fixed _ _ Hf Hc).
Qed.

Lemma reachable_constants w : reachable w -> constants (this w).
Proof.
  induction 1 as [page storage rnd|fuel w w' i _ IH Hs].
  - repeat split.
  - exact (step_constants _ _ _ _ IH Hs).
Qed.

(** [answered w n w']: [w'] is reached from [w] without a new game being
    started, by turns of the event loop of which [n] are correct answers. *)
Inductive answered : World -> nat -> World -> Prop :=
| answered_none w : answered w 0 w
| answered_correct fuel w n w1 i w2 :
    answered w n w1 -> step fuel w1 i = Some w2 ->
    startsGame w1 i = false -> answersCorrectly w1 i = true ->
    answered w (S n) w2
| answered_other fuel w n w1 i w2 :
    answered w n w1 -> step fuel w1 i = Some w2 ->
    startsGame w1 i = false -> answersCorrectly w1 i = false ->
    answered w n w2.

(** Space starts a game, the two display timers fire, and the key of the
    font color is pressed after 100 ms. *)
Definition oneCorrectAnswer : list Input :=
  [User 0 (KeyDown "Space"); Fire 1; Fire 2; User 100 (KeyDown "KeyB")].

Definition freshGame : World := constructor blankPage ∅ redThenBlue.

Definition afterOneCorrectAnswer : World :=
  default freshGame (run 5 freshGame oneCorrectAnswer).

(** The next round is shown, the key of another color is pressed, and the
    game ends 1500 ms later. *)
Definition thenOneWrongAnswer : list Input :=
  [Fire 4; Fire 5; Fire 6; Fire 7; User 1200 (KeyDown "KeyR");
   Fire 10; Fire 9; Fire 11].

Definition afterGameOver : World :=
  default freshGame (run 5 afterOneCorrectAnswer thenOneWrongAnswer).

Lemma run_reachable fuel inputs : forall w w',
  reachable w -> run fuel w inputs = Some w' -> reachable w'.
Proof.
  induction inputs as [|i rest IH]; intros w w' Hr H; cbn [run] in H.
  - injection H as <-. exact Hr.
  - destruct (step fuel w i) as [w1|] eqn:Hs; [|discriminate].
    exact (IH w1 w' (reachable_step fuel w w1 i Hr Hs) H).
Qed.

Lemma run_oneCorrectAnswer :
  run 5 freshGame oneCorrectAnswer = Some afterOneCorrectAnswer.
Proof. vm_compute. reflexivity. Qed.

Lemma answersCorrectly_not_start w i :
  answersCorrectly w i = true -> startsGame w i = false.
Proof.
  unfold answersCorrectly. destruct (isPlaying (this w)) eqn:Hp; [|discriminate].
  destruct i as [t [[| | | |color]|code]|h]; cbn [answer startsGame andb];
    try discriminate; try reflexivity.
  rewrite Hp. reflexivity.
Qed.

Lemma reachable_score w :
  reachable w -> exists k, 0 <= k /\ currentScore (this w) = 10 * k.
Proof.
  induction 1 as [page storage rnd|fuel w w' i Hr (k & Hk & IH) Hs].
  - exists 0. split; [lia|reflexivity].
  - destruct (step_effect _ _ _ _ (reachable_constants w Hr) Hs) as [_ He].
    change (currentScore (this w')) with (score (session w')).
    change (currentScore (this w)) with (score (session w)) in IH.
    destruct (startsGame w i); [rewrite He; exists 0; split; [lia|reflexivity]|].
    destruct (answersCorrectly w i);
      [rewrite He; exists (k + 1); cbn [score afterCorrect]; split; lia|].
    destruct He as [->| [->| ->]].
    + exists k. auto.
    + exists 0. split; [lia|reflexivity].
    + exists k. unfold afterEnd. destruct gt_num; auto.
Qed.

(** C2.  In every reachable state [currentScore] is a non-negative multiple
    of 10.  [handleCorrectAnswer] adds exactly 10; [startGame], [exitGame]
    (while playing) and [returnToMainMenu] set it to 0; and a turn of the
    event loop adds 10 when it is a correct answer and otherwise leaves the
    score as it is or sets it to 0. *)
Theorem score_multiple_of_ten :
  (forall w, reachable w ->
     exists k, 0 <= k /\ currentScore (this w) = 10 * k) /\
  (forall w,
     currentScore (this (handleCorrectAnswer w)) = currentScore (this w) + 10) /\
  (forall fuel w w',
     startGame fuel w = Some w' -> currentScore (this w') = 0) /\
  (forall w,
     isPlaying (this w) = true -> currentScore (this (exitGame w)) = 0) /\
  (forall w, currentScore (this (returnToMainMenu w)) = 0) /\
  (forall fuel w i w',
     reachable w -> step fuel w i = Some w' ->
     if answersCorrectly w i
     then currentScore (this w') = currentScore (this w) + 10
     else currentScore (this w') = currentScore (this w) \/
          currentScore (this w') = 0).
Proof.
  split; [exact reachable_score|].
  split; [reflexivity|].
  split.
  { intros fuel w w' H. apply startGame_session in H. destruct H as [H _].
    change (score (session w') = 0). rewrite H. reflexivity. }
  split.
  { intros w Hp. unfold exitGame. rewrite Hp. reflexivity. }
  split; [reflexivity|].
  intros fuel w i w' Hr Hs.
  destruct (step_effect _ _ _ _ (reachable_constants w Hr) Hs) as [_ He].
  change (currentScore (this w')) with (score (session w')).
  change (currentScore (this w)) with (score (session w)).
  destruct (answersCorrectly w i) eqn:Ha.
  - rewrite (answersCorrectly_not_start _ _ Ha) in He. rewrite He. reflexivity.
  - destruct (startsGame w i); [rewrite He; right; reflexivity|].
    destruct He as [->| [->| ->]]; auto.
    left. unfold afterEnd. destruct gt_num; reflexivity.
Qed.

Lemma score_multiple_of_ten_witness :
  exists k, 0 <= k /\ currentScore (this afterOneCorrectAnswer) = 10 * k.
Proof.
  apply (proj1 score_multiple_of_ten afterOneCorrectAnswer).
  apply (run_reachable 5 oneCorrectAnswer freshGame).
  - apply reachable_constructor.
  - vm_compute. reflexivity.
Defined.

Lemma step_timeLimit fuel w i w' :
  reachable w -> step fuel w i = Some w' ->
  currentTimeLimit (this w') =
    if startsGame w i then 3000
    else if answersCorrectly w i
         then Z.max 800 (currentTimeLimit (this w) - 100)
         else currentTimeLimit (this w).
Proof.
  intros Hr Hs.
  destruct (step_effect _ _ _ _ (reachable_constants w Hr) Hs) as [_ He].
  change (currentTimeLimit (this w')) with (timeLimit (session w')).
  change (currentTimeLimit (this w)) with (timeLimit (session w)).
  destruct (startsGame w i); [rewrite He; reflexivity|].
  destruct (answersCorrectly w i); [rewrite He; reflexivity|].
  destruct He as [->| [->| ->]]; try reflexivity.
  unfold afterEnd. destruct gt_num; reflexivity.
Qed.

Lemma reachable_timeLimit w :
  reachable w -> 800 <= currentTimeLimit (this w) <= 3000.
Proof.
  induction 1 as [page storage rnd|fuel w w' i Hr IH Hs].
  - cbn. lia.
  - rewrite (step_timeLimit _ _ _ _ Hr Hs).
    destruct (startsGame w i); [lia|].
    destruct (answersCorrectly w i); lia.
Qed.

Lemma answered_reachable w n w' :
  reachable w -> answered w n w' -> reachable w'.
Proof.
  intros Hr. induction 1; eauto using reachable_step.
Qed.

Lemma answered_timeLimit w n w' :
  reachable w -> answered w n w' ->
  currentTimeLimit (this w') =
    Z.max 800 (currentTimeLimit (this w) - 100 * Z.of_nat n).
Proof.
  intros Hr Ha.
  induction Ha as [w|fuel w n w1 i w2 Ha IH Hs Hst Hc
                     |fuel w n w1 i w2 Ha IH Hs Hst Hc].
  - pose proof (reachable_timeLimit w Hr). lia.
  - rewrite (step_timeLimit _ _ _ _ (answered_reachable _ _ _ Hr Ha) Hs).
    rewrite Hst, Hc, (IH Hr). lia.
  - rewrite (step_timeLimit _ _ _ _ (answered_reachable _ _ _ Hr Ha) Hs).
    rewrite Hst, Hc. exact (IH Hr).
Qed.

(** C3.  [currentTimeLimit] is 3000 after the constructor and after
    [startGame]; it lies between 800 and 3000 in every reachable state; a
    correct answer sets it to max(800, currentTimeLimit - 100), which is not
    above its old value; and after [n] correct answers in a game it is
    max(800, 3000 - 100 n), hence exactly 800 once [n] is 23 or more. *)
Theorem time_limit_ramp :
  (forall page storage rnd,
     currentTimeLimit (this (constructor page storage rnd)) = 3000) /\
  (forall fuel w w',
     startGame fuel w = Some w' -> currentTimeLimit (this w') = 3000) /\
  (forall w, reachable w -> 800 <= currentTimeLimit (this w) <= 3000) /\
  (forall w, reachable w ->
     currentTimeLimit (this (handleCorrectAnswer w)) =
       Z.max 800 (currentTimeLimit (this w) - 100) /\
     currentTimeLimit (this (handleCorrectAnswer w)) <=
       currentTimeLimit (this w)) /\
  (forall w n w',
     reachable w -> currentTimeLimit (this w) = 3000 -> answered w n w' ->
     currentTimeLimit (this w') = Z.max 800 (3000 - 100 * Z.of_nat n) /\
     ((23 <= n)%nat -> currentTimeLimit (this w') = 800)).
Proof.
  split; [reflexivity|].
  split.
  { intros fuel w w' H. apply startGame_session in H. destruct H as [H _].
    change (timeLimit (session w') = 3000). rewrite H. reflexivity. }
  split; [exact reachable_timeLimit|].
  split.
  { intros w Hr. pose proof (reachable_timeLimit w Hr) as Hb.
    destruct (handleCorrectAnswer_session w (reachable_constants w Hr))
      as [H _].
    change (timeLimit (session (handleCorrectAnswer w)) =
              Z.max 800 (timeLimit (session w) - 100) /\
            timeLimit (session (handleCorrectAnswer w)) <=
              timeLimit (session w)).
    rewrite H. cbn [afterCorrect timeLimit session] in *. lia. }
  intros w n w' Hr H0 Ha.
  rewrite (answered_timeLimit _ _ _ Hr Ha), H0. lia.
Qed.

Lemma time_limit_ramp_witness :
  800 <= currentTimeLimit (this afterOneCorrectAnswer) <= 3000.
Proof.
  apply (proj1 (proj2 (proj2 time_limit_ramp)) afterOneCorrectAnswer).
  apply (run_reachable 5 oneCorrectAnswer freshGame).
  - apply reachable_constructor.
  - vm_compute. reflexivity.
Defined.

Ltac project_dom :=
  cbn [dom onDom gameArea colorWord currentScoreEl highScoreEl timerBar
       gameOverScreen finalScoreEl highScoreMessage feedback colorButtons
       onGameArea onColorWord onCurrentScoreEl onHighScoreEl onTimerBar
       onGameOverScreen onFinalScoreEl onHighScoreMessage onFeedback
       onColorButtons textContent classList style disabled
       setText setClassName addClass removeClass setStyle setDisabled] in *.

Lemma gt_num_Int s h : gt_num s (Int h) = true <-> h < s.
Proof. unfold gt_num. apply Z.ltb_lt. Qed.

Lemma step_highScore fuel w i w' :
  reachable w -> step fuel w i = Some w' ->
  (highScore (this w') = highScore (this w) /\
   localStorage w' !! "colorMatchHighScore" =
     localStorage w !! "colorMatchHighScore") \/
  (gt_num (currentScore (this w)) (highScore (this w)) = true /\
   highScore (this w') = Int (currentScore (this w)) /\
   localStorage w' !! "colorMatchHighScore" =
     Some (JS.toString (Int (currentScore (this w))))).
Proof.
  intros Hr Hs.
  destruct (step_effect _ _ _ _ (reachable_constants w Hr) Hs) as [_ He].
  change (highScore (this w')) with (best (session w')).
  change (localStorage w' !! "colorMatchHighScore") with (saved (session w')).
  destruct (startsGame w i); [rewrite He; left; split; reflexivity|].
  destruct (answersCorrectly w i); [rewrite He; left; split; reflexivity|].
  destruct He as [->| [->| ->]]; try (left; split; reflexivity).
  unfold afterEnd. cbn [session score best].
  destruct gt_num; [right|left]; repeat split.
Qed.

Lemma step_highScore_mono fuel w i w' h :
  reachable w -> step fuel w i = Some w' -> highScore (this w) = Int h ->
  exists h', highScore (this w') = Int h' /\ h <= h'.
Proof.
  intros Hr Hs Hh.
  destruct (step_highScore _ _ _ _ Hr Hs) as [[-> _]|(Hgt & -> & _)].
  - exists h. split; [assumption|lia].
  - rewrite Hh in Hgt. apply gt_num_Int in Hgt. eexists. split; [reflexivity|lia].
Qed.

Lemma run_highScore_mono fuel inputs : forall w w' h,
  reachable w -> run fuel w inputs = Some w' -> highScore (this w) = Int h ->
  exists h', highScore (this w') = Int h' /\ h <= h'.
Proof.
  induction inputs as [|i rest IH]; intros w w' h Hr H Hh; cbn [run] in H.
  - injection H as <-. exists h. split; [assumption|lia].
  - destruct (step fuel w i) as [w1|] eqn:Hs; [|discriminate].
    destruct (step_highScore_mono _ _ _ _ _ Hr Hs Hh) as (h1 & Hh1 & Hle).
    destruct (IH w1 w' h1 (reachable_step _ _ _ _ Hr Hs) H Hh1)
      as (h' & Hh' & Hle').
    exists h'. split; [assumption|lia].
Qed.

(** C4.  [endGame] compares [currentScore] with [highScore]: when the score
    is strictly greater it becomes the high score, is written to the store
    and the new-high-score message is shown; otherwise the high score and the
    store stay as they are and the message is hidden.  Against a high score
    [h] the comparison succeeds exactly when [h < currentScore].  No turn of
    the event loop changes the high score or the stored item in any other
    way, so along every run the high score never decreases. *)
Theorem high_score_update :
  (forall w,
     if gt_num (currentScore (this w)) (highScore (this w))
     then highScore (this (endGame w)) = Int (currentScore (this w)) /\
          localStorage (endGame w) =
            <[ "colorMatchHighScore" :=
                 JS.toString (Int (currentScore (this w))) ]> (localStorage w) /\
          style (highScoreMessage (dom (endGame w))) !! "display" =
            Some "block"
     else highScore (this (endGame w)) = highScore (this w) /\
          localStorage (endGame w) = localStorage w /\
          style (highScoreMessage (dom (endGame w))) !! "display" =
            Some "none") /\
  (forall s h, gt_num s (Int h) = true <-> h < s) /\
  (forall fuel w i w',
     reachable w -> step fuel w i = Some w' ->
     (highScore (this w') = highScore (this w) /\
      localStorage w' !! "colorMatchHighScore" =
        localStorage w !! "colorMatchHighScore") \/
     (gt_num (currentScore (this w)) (highScore (this w)) = true /\
      highScore (this w') = Int (currentScore (this w)) /\
      localStorage w' !! "colorMatchHighScore" =
        Some (JS.toString (Int (currentScore (this w)))))) /\
  (forall fuel inputs w w' h,
     reachable w -> run fuel w inputs = Some w' ->
     highScore (this w) = Int h ->
     exists h', highScore (this w') = Int h' /\ h <= h').
Proof.
  split.
  { intros w. unfold endGame. project.
    destruct (gt_num (currentScore (this w)) (highScore (this w)));
      unfold showGameOverScreen, updateHighScoreDisplay, saveHighScore;
      project; project_dom; rewrite lookup_insert_eq; repeat split. }
  split; [exact gt_num_Int|].
  split; [exact step_highScore|].
  intros fuel inputs. exact (run_highScore_mono fuel inputs).
Qed.

Lemma high_score_update_witness :
  exists h', highScore (this afterGameOver) = Int h' /\ 0 <= h'.
Proof.
  apply (proj2 (proj2 (proj2 high_score_update))
           5%nat (oneCorrectAnswer ++ thenOneWrongAnswer)%list
           freshGame afterGameOver 0).
  - apply reachable_constructor.
  - vm_compute. reflexivity.
  - vm_compute. reflexivity.
Defined.

(** *** Timeout and wrong answer *)

Lemma elem_of_timers_setTimeout cb delay w :
  {| handle := nextHandle w; due := now w + delay; callback := cb |}
    ∈ timers (snd (setTimeout cb delay w)).
Proof. cbn. apply elem_of_app. right. apply list_elem_of_singleton. reflexivity. Qed.

(** C6.  For a game in play and a color that is not the correct answer,
    [handleTimeUp] and [handleColorClick] leave the game object (score, time
    limit, high score, round) and the store exactly as they were, leave the
    color buttons in the same, disabled, state, schedule [endGame] 1500 ms
    from now, and show feedback of the same type; the messages differ,
    Time's Up! against Wrong!. *)
Theorem timeout_like_wrong_answer (w : World) (color : string) :
  isPlaying (this w) = true ->
  correctAnswer (this w) <> Some color ->
  this (handleTimeUp w) = this w /\
  this (handleColorClick color w) = this w /\
  localStorage (handleTimeUp w) = localStorage w /\
  localStorage (handleColorClick color w) = localStorage w /\
  (exists h, {| handle := h; due := now w + 1500; callback := EndGame |}
               ∈ timers (handleTimeUp w)) /\
  (exists h, {| handle := h; due := now w + 1500; callback := EndGame |}
               ∈ timers (handleColorClick color w)) /\
  colorButtons (dom (handleTimeUp w)) =
    colorButtons (dom (handleColorClick color w)) /\
  classList (feedback (dom (handleTimeUp w))) =
    classList (feedback (dom (handleColorClick color w))) /\
  textContent (feedback (dom (handleTimeUp w))) = "Time's Up!" /\
  textContent (feedback (dom (handleColorClick color w))) = "Wrong!".
Proof.
  intros Hp Hc. unfold handleColorClick. rewrite Hp. cbn [negb].
  set (w1 := disableColorButtons (clearTimeout (gameTimer (this w)) w)).
  change (correctAnswer (this w1)) with (correctAnswer (this w)).
  rewrite bool_decide_eq_false_2 by exact Hc.
  repeat split; try reflexivity.
  - eexists.
    exact (elem_of_timers_setTimeout EndGame 1500
             (disableColorButtons (showFeedback "Time's Up!" "incorrect" w))).
  - eexists.
    exact (elem_of_timers_setTimeout EndGame 1500
             (snd (setTimeout RemoveShake 500
                (onDom (onGameArea (addClass "shake"))
                   (showFeedback "Wrong!" "incorrect" w1))))).
Qed.

Definition afterStartKey : World :=
  default freshGame (run 5 freshGame [User 0 (KeyDown "Space")]).

Lemma timeout_like_wrong_answer_witness :
  this (handleTimeUp afterStartKey) = this afterStartKey /\
  this (handleColorClick "red" afterStartKey) = this afterStartKey.
Proof.
  assert (Hp : isPlaying (this afterStartKey) = true)
    by (vm_compute; reflexivity).
  assert (Hc : correctAnswer (this afterStartKey) <> Some "red")
    by (vm_compute; discriminate).
  destruct (timeout_like_wrong_answer afterStartKey "red" Hp Hc)
    as (H1 & H2 & _).
  exact (conj H1 H2).
Defined.

(** *** Round generation *)

Lemma floorTimes_range r n :
  (0 <= r)%Q -> (r < 1)%Q -> (0 < n)%nat ->
  0 <= floorTimes r n < Z.of_nat n.
Proof.
  intros H0 H1 Hn. unfold floorTimes.
  assert (Hpos : (0 < inject_Z (Z.of_nat n))%Q)
    by (rewrite <- (Zlt_Qlt 0); lia).
  split.
  - rewrite <- (Qfloor_Z 0). apply Qfloor_resp_le.
    apply Qmult_le_0_compat; [exact H0|apply Qlt_le_weak; exact Hpos].
  - rewrite Zlt_Qlt. eapply Qle_lt_trans; [apply Qfloor_le|].
    rewrite <- (Qmult_1_l (inject_Z (Z.of_nat n))) at 2.
    apply Qmult_lt_compat_r; assumption.
Qed.




(** C1.  When [generateRoundData] returns, the font color index it drew
    differs from the word index, [currentWord] and [currentFontColor] are
    the entries of [colorNames] and [colors] at these indices, and
    [correctAnswer] is the font color.  With the palette of the constructor
    and [Math.random()] in [0, 1), both indices lie in 0..3, word and font
    color are defined, and the font color is not the color at the word's
    index. *)
Theorem generateRoundData_stroop (fuel : nat) (w w' : World) :
  generateRoundData fuel w = Some w' ->
  exists wordIndex fontColorIndex : Z,
    wordIndex =
      floorTimes (random w (cursor w)) (length (colorNames (this w))) /\
    fontColorIndex <> wordIndex /\
    currentWord (this w') = at_index (colorNames (this w)) wordIndex /\
    currentFontColor (this w') = at_index (colors (this w)) fontColorIndex /\
    correctAnswer (this w') = currentFontColor (this w') /\
    (constants (this w) ->
     (forall n, (0 <= random w n)%Q /\ (random w n < 1)%Q) ->
     0 <= wordIndex < 4 /\ 0 <= fontColorIndex < 4 /\
     exists word color,
       currentWord (this w') = Some word /\
       currentFontColor (this w') = Some color /\
       at_index (colors (this w)) wordIndex <> Some color).
Proof.
  unfold generateRoundData, Math_random. intros H.
  destruct drawFontColorIndex as [[fontColorIndex w1]|] eqn:Hd; [|discriminate].
  injection H as <-. apply drawFontColorIndex_spec in Hd. project.
  destruct Hd as (Hne & Ht & _ & _ & _ & _ & _ & _ & _ & Hfont).
  eexists _, fontColorIndex. split; [reflexivity|]. split; [exact Hne|].
  rewrite Ht. project. do 3 (split; [reflexivity|]).
  intros (_ & _ & Hcolors & Hnames) Hrange.
  rewrite Hcolors, Hnames in *.
  assert (Hw : 0 <= floorTimes (random w (cursor w)) 4 < 4)
    by (apply (floorTimes_range _ 4); [apply Hrange..|lia]).
  assert (Hf : 0 <= fontColorIndex < 4)
    by (rewrite Hfont; apply (floorTimes_range _ 4); [apply Hrange..|lia]).
  cbn [length] in *. split; [exact Hw|]. split; [exact Hf|].
  set (wordIndex := floorTimes (random w (cursor w)) 4) in *.
  clearbody wordIndex. clear Hfont.
  assert (Hcases : forall i, 0 <= i < 4 -> i = 0 \/ i = 1 \/ i = 2 \/ i = 3)
    by (intros; lia).
  destruct (Hcases _ Hw) as [->| [->| [->| ->]]];
    destruct (Hcases _ Hf) as [->| [->| [->| ->]]];
    try contradiction; do 2 eexists; repeat split; discriminate.
Qed.

Lemma redThenBlue_range n :
  (0 <= redThenBlue n)%Q /\ (redThenBlue n < 1)%Q.
Proof. unfold redThenBlue. destruct (Nat.even n); split; reflexivity || discriminate. Qed.

Definition firstRound : World :=
  default freshGame (generateRoundData 1 freshGame).

Lemma generateRoundData_stroop_witness :
  exists wordIndex fontColorIndex : Z,
    fontColorIndex <> wordIndex /\
    0 <= wordIndex < 4 /\ 0 <= fontColorIndex < 4 /\
    exists word color,
      currentWord (this firstRound) = Some word /\
      currentFontColor (this firstRound) = Some color /\
      at_index (colors (this freshGame)) wordIndex <> Some color.
Proof.
  assert (Hg : generateRoundData 1 freshGame = Some firstRound)
    by (vm_compute; reflexivity).
  destruct (generateRoundData_stroop 1 freshGame firstRound Hg)
    as (wordIndex & fontColorIndex & _ & Hne & _ & _ & _ & Hin).
  exists wordIndex, fontColorIndex. split; [exact Hne|].
  apply Hin.
  - repeat split.
  - exact redThenBlue_range.
Defined.









(** *** Numbers as strings *)

Definition isDecimalDigit (c : ascii) : bool :=
  (48 <=? JS.charCode c) && (JS.charCode c <=? 57).

Fixpoint allDecimalDigits (s : string) : bool :=
  match s with
  | String c rest => isDecimalDigit c && allDecimalDigits rest
  | EmptyString => true
  end.

(** The number a string of decimal digits denotes, after the digits [acc]. *)
Fixpoint decimalValue (acc : Z) (s : string) : Z :=
  match s with
  | String c rest => decimalValue (acc * 10 + (JS.charCode c - 48)) rest
  | EmptyString => acc
  end.

Lemma charCode_digitChar d :
  0 <= d < 10 -> JS.charCode (JS.digitChar d) = 48 + d.
Proof.
  intros Hd. unfold JS.charCode, JS.digitChar.
  rewrite nat_ascii_embedding; lia.
Qed.

Lemma isDecimalDigit_cases c :
  isDecimalDigit c = true ->
  JS.isWhiteSpace c = false /\ JS.splitSign (String c "") = (1, String c "") /\
  c <> "x"%char /\ c <> "X"%char /\
  JS.radixDigit 10 c = Some (JS.charCode c - 48) /\
  0 <= JS.charCode c - 48.
Proof.
  destruct c as [[] [] [] [] [] [] [] []]; vm_compute; intros H;
    try discriminate H; repeat split; discriminate.
Qed.

Lemma splitSign_digit c rest :
  isDecimalDigit c = true ->
  JS.splitSign (String c rest) = (1, String c rest).
Proof.
  destruct c as [[] [] [] [] [] [] [] []]; vm_compute; intros H;
    try discriminate H; reflexivity.
Qed.

Lemma splitPrefix_digits s :
  allDecimalDigits s = true -> JS.splitPrefix s = (10, s).
Proof.
  destruct s as [|c [|c' rest]]; intros H.
  - reflexivity.
  - unfold JS.splitPrefix. destruct c as [[] [] [] [] [] [] [] []]; reflexivity.
  - 
  cbn [allDecimalDigits] in H. apply andb_prop in H. destruct H as [_ H].
  apply andb_prop in H. destruct H as [H _].
  apply isDecimalDigit_cases in H. destruct H as (_ & _ & Hx & HX & _).
  unfold JS.splitPrefix.
  destruct c as [[] [] [] [] [] [] [] []]; try reflexivity.
  destruct c' as [[] [] [] [] [] [] [] []]; try reflexivity; congruence.
Qed.

Lemma leadingDigits_decimal s : forall acc,
  allDecimalDigits s = true ->
  fold_left (fun a d => a * 10 + d) (JS.leadingDigits 10 s) acc
    = decimalValue acc s /\
  (s <> "" -> JS.leadingDigits 10 s <> []).
Proof.
  induction s as [|c rest IH]; intros acc H; [split; [reflexivity|congruence]|].
  cbn [allDecimalDigits] in H. apply andb_prop in H. destruct H as [Hc Hrest].
  apply isDecimalDigit_cases in Hc. destruct Hc as (_ & _ & _ & _ & Hd & _).
  cbn [JS.leadingDigits decimalValue]. rewrite Hd. cbn [fold_left].
  split; [apply IH; exact Hrest|discriminate].
Qed.

Lemma decimalValue_nonneg s : forall acc,
  allDecimalDigits s = true -> 0 <= acc -> 0 <= decimalValue acc s.
Proof.
  induction s as [|c rest IH]; intros acc H Hacc; [exact Hacc|].
  cbn [allDecimalDigits] in H. apply andb_prop in H. destruct H as [Hc Hrest].
  apply isDecimalDigit_cases in Hc. destruct Hc as (_ & _ & _ & _ & _ & Hd).
  cbn [decimalValue]. apply IH; [exact Hrest|lia].
Qed.

Lemma parseInt_decimal_string s :
  s <> "" -> allDecimalDigits s = true ->
  JS.parseInt s = Int (decimalValue 0 s).
Proof.
  intros Hne Hall. destruct (leadingDigits_decimal s 0 Hall) as [Hval Hnil].
  specialize (Hnil Hne).
  destruct s as [|c rest]; [congruence|].
  pose proof Hall as Hc. cbn [allDecimalDigits] in Hc.
  apply andb_prop in Hc. destruct Hc as [Hc _].
  unfold JS.parseInt. cbn [JS.trimStart].
  rewrite (proj1 (isDecimalDigit_cases c Hc)), (splitSign_digit c rest Hc).
  rewrite (splitPrefix_digits _ Hall).
  destruct (JS.leadingDigits 10 (String c rest)) as [|d ds] eqn:Hds;
    [congruence|].
  unfold JS.mathInt. rewrite Hval. f_equal. lia.
Qed.

Lemma decimalAux_spec fuel : forall n acc,
  0 <= n < 10 ^ Z.of_nat (S fuel) ->
  let s := JS.decimalAux (S fuel) n acc in
  s <> "" /\
  allDecimalDigits s = allDecimalDigits acc /\
  decimalValue 0 s = decimalValue n acc.
Proof.
  induction fuel as [|fuel IH]; intros n acc Hn s; subst s.
  - assert (Hlt : n < 10) by (change (10 ^ Z.of_nat 1) with 10 in Hn; lia).
    cbn [JS.decimalAux]. rewrite (proj2 (Z.ltb_lt _ _) Hlt).
    rewrite Z.mod_small by lia.
    split; [discriminate|]. cbn [allDecimalDigits decimalValue].
    unfold isDecimalDigit. rewrite charCode_digitChar by lia.
    split; [|f_equal; lia].
    replace (48 <=? 48 + n) with true by (symmetry; apply Z.leb_le; lia).
    replace (48 + n <=? 57) with true by (symmetry; apply Z.leb_le; lia).
    reflexivity.
  - change (JS.decimalAux (S (S fuel)) n acc)
      with (let acc' := String (JS.digitChar (n mod 10)) acc in
            if n <? 10 then acc' else JS.decimalAux (S fuel) (n / 10) acc').
    cbv zeta.
    assert (Hmod : 0 <= n mod 10 < 10) by (apply Z.mod_pos_bound; lia).
    assert (Hdigit :
              isDecimalDigit (JS.digitChar (n mod 10)) = true).
    { unfold isDecimalDigit. rewrite charCode_digitChar by lia.
      apply andb_true_intro. split; apply Z.leb_le; lia. }
    destruct (Z.ltb_spec n 10) as [Hlt|Hge].
    + split; [discriminate|]. cbn [allDecimalDigits decimalValue].
      rewrite Hdigit, charCode_digitChar, Z.mod_small by lia.
      split; [reflexivity|f_equal; lia].
    + assert (Hdiv : 0 <= n / 10 < 10 ^ Z.of_nat (S fuel)).
      { split; [apply Z.div_pos; lia|].
        apply Z.div_lt_upper_bound; [lia|].
        rewrite <- Z.pow_succ_r by lia.
        replace (Z.succ (Z.of_nat (S fuel))) with (Z.of_nat (S (S fuel)))
          by lia.
        lia. }
      destruct (IH (n / 10) (String (JS.digitChar (n mod 10)) acc) Hdiv)
        as (Hne & Hall & Hval).
      split; [exact Hne|]. rewrite Hall, Hval.
      cbn [allDecimalDigits decimalValue].
      rewrite Hdigit, charCode_digitChar by lia.
      split; [reflexivity|f_equal].
      pose proof (Z.div_mod n 10). lia.
Qed.

Lemma decimal_spec n :
  0 <= n ->
  JS.decimal n <> "" /\ allDecimalDigits (JS.decimal n) = true /\
  decimalValue 0 (JS.decimal n) = n.
Proof.
  intros Hn. unfold JS.decimal. apply decimalAux_spec. split; [exact Hn|].
  destruct (Z.eq_dec n 0) as [->|Hpos]; [reflexivity|].
  rewrite Nat2Z.inj_succ, Z2Nat.id by apply Z.log2_nonneg.
  eapply Z.lt_le_trans; [apply Z.log2_spec; lia|].
  apply Z.pow_le_mono_l. pose proof (Z.log2_nonneg n). lia.
Qed.

Lemma toString_decimal n :
  0 <= n < 10 ^ 21 -> JS.toString (Int n) = JS.decimal n.
Proof.
  intros [H0 H1]. destruct n as [|p|p]; [reflexivity| |lia].
  unfold JS.toString, JS.positiveToString.
  rewrite (proj2 (Z.ltb_lt _ _) H1). reflexivity.
Qed.

Lemma parseInt_toString n :
  0 <= n < 10 ^ 21 ->
  truthy (JS.toString (Int n)) = true /\
  JS.parseInt (JS.toString (Int n)) = Int n.
Proof.
  intros Hn. rewrite (toString_decimal n Hn).
  destruct (decimal_spec n (proj1 Hn)) as (Hne & Hall & Hval).
  split.
  - unfold truthy.
    destruct (String.eqb_spec (JS.decimal n) ""); [congruence|reflexivity].
  - rewrite (parseInt_decimal_string _ Hne Hall), Hval. reflexivity.
Qed.

Lemma digitValue_nonneg c d : JS.digitValue c = Some d -> 0 <= d.
Proof.
  unfold JS.digitValue. cbv zeta. generalize (JS.charCode c). intros n.
  destruct (Z.leb_spec 48 n), (Z.leb_spec 97 n), (Z.leb_spec 65 n);
    cbn [andb]; repeat destruct (_ <=? _);
    intros Hd; try discriminate Hd; injection Hd as <-; lia.
Qed.

Lemma leadingDigits_nonneg R s : Forall (fun d => 0 <= d) (JS.leadingDigits R s).
Proof.
  induction s as [|c rest IH]; cbn [JS.leadingDigits]; [constructor|].
  unfold JS.radixDigit. destruct (JS.digitValue c) as [d|] eqn:Hd;
    [|constructor].
  destruct (d <? R); constructor; [|exact IH].
  exact (digitValue_nonneg c d Hd).
Qed.

Lemma mathInt_nonneg R ds :
  0 <= R -> Forall (fun d => 0 <= d) ds -> 0 <= JS.mathInt R ds.
Proof.
  intros HR Hds. unfold JS.mathInt.
  assert (H : forall acc, 0 <= acc ->
            0 <= fold_left (fun a d => a * R + d) ds acc).
  { induction Hds as [|d ds Hd _ IH]; intros acc Hacc; [exact Hacc|].
    cbn [fold_left]. apply IH. nia. }
  apply H. lia.
Qed.

Lemma splitPrefix_radix u : 0 <= fst (JS.splitPrefix u).
Proof.
  destruct u as [|c [|c' rest]]; unfold JS.splitPrefix;
    [cbn; lia|destruct c as [[] [] [] [] [] [] [] []]; cbn; lia|].
  destruct c as [[] [] [] [] [] [] [] []]; try (cbn; lia).
  destruct c' as [[] [] [] [] [] [] [] []]; cbn; lia.
Qed.

Lemma splitSign_cases u :
  (exists rest, u = String "-" rest) \/ fst (JS.splitSign u) = 1.
Proof.
  destruct u as [|c rest]; [right; reflexivity|].
  destruct c as [[] [] [] [] [] [] [] []];
    try (right; reflexivity).
  left. eexists. reflexivity.
Qed.

Lemma parseInt_negative s z :
  JS.parseInt s = Int z -> z < 0 ->
  exists rest, JS.trimStart s = String "-" rest.
Proof.
  unfold JS.parseInt. intros H Hz.
  destruct (splitSign_cases (JS.trimStart s)) as [Hminus|Hsign];
    [exact Hminus|exfalso].
  destruct (JS.splitSign (JS.trimStart s)) as [sign unsigned].
  cbn [fst] in Hsign. subst sign.
  pose proof (splitPrefix_radix unsigned) as HR.
  destruct (JS.splitPrefix unsigned) as [R digits]. cbn [fst] in HR.
  pose proof (mathInt_nonneg R _ HR (leadingDigits_nonneg R digits)) as Hm.
  destruct (JS.leadingDigits R digits); [discriminate|].
  injection H as <-. lia.
Qed.

(** The digits [parseInt] reads: those that follow the white space, the
    sign and the [0x] prefix. *)
Definition integerDigits (s : string) : list Z :=
  let '(_, unsigned) := JS.splitSign (JS.trimStart s) in
  let '(R, digits) := JS.splitPrefix unsigned in
  JS.leadingDigits R digits.

Lemma parseInt_NaN s : JS.parseInt s = NaN <-> integerDigits s = [].
Proof.
  unfold JS.parseInt, integerDigits.
  destruct (JS.splitSign (JS.trimStart s)) as [sign unsigned].
  destruct (JS.splitPrefix unsigned) as [R digits].
  destruct (JS.leadingDigits R digits); split; congruence.
Qed.

(** C7, as the code has it.  [loadHighScore] yields 0 when the item is
    absent or the empty string.  For any other stored string it yields NaN
    exactly when no digit follows the white space, the sign and the [0x]
    prefix, and the integer [parseInt] reads when that is at most 2^53 in
    absolute value.  A non-empty string of decimal digits that denotes at
    most 2^53 loads as the non-negative integer it denotes, and a negative
    value is loaded only from a string whose first character after the
    white space is a minus sign. *)
Theorem loadHighScore_value (w : World) :
  let savedHighScore := localStorage w !! "colorMatchHighScore" in
  let loaded := highScore (this (loadHighScore w)) in
  (savedHighScore = None \/ savedHighScore = Some "" -> loaded = Int 0) /\
  (forall s, savedHighScore = Some s -> s <> "" ->
     (loaded = NaN <-> integerDigits s = []) /\
     (forall z, JS.parseInt s = Int z -> Z.abs z <= 2 ^ 53 ->
        loaded = Int z)) /\
  (forall s,
     savedHighScore = Some s -> s <> "" -> allDecimalDigits s = true ->
     decimalValue 0 s <= 2 ^ 53 ->
     loaded = Int (decimalValue 0 s) /\ 0 <= decimalValue 0 s) /\
  (forall s z,
     savedHighScore = Some s -> loaded = Int z -> z < 0 ->
     exists rest, JS.trimStart s = String "-" rest).
Proof.
  intros savedHighScore loaded. subst loaded.
  unfold loadHighScore, updateHighScoreDisplay. project.
  fold savedHighScore.
  assert (Hload : forall s, savedHighScore = Some s -> s <> "" ->
            match savedHighScore with
            | Some s => if truthy s then JS.parseInt s else Int 0
            | None => Int 0
            end = JS.parseInt s).
  { intros s -> Hne. unfold truthy.
    destruct (String.eqb_spec s ""); [congruence|reflexivity]. }
  split; [|split; [|split]].
  - intros [->| ->]; reflexivity.
  - intros s Hs Hne. rewrite (Hload s Hs Hne). split.
    + apply parseInt_NaN.
    + intros z Hz _. exact Hz.
  - intros s Hs Hne Hall _. rewrite (Hload s Hs Hne).
    split; [exact (parseInt_decimal_string s Hne Hall)|].
    apply decimalValue_nonneg; [exact Hall|lia].
  - intros s z Hs Hz Hneg.
    destruct (String.eqb_spec s "") as [->|Hne].
    + rewrite Hs in Hz. cbn in Hz. injection Hz as <-. lia.
    + rewrite (Hload s Hs Hne) in Hz. exact (parseInt_negative s z Hz Hneg).
Qed.

Definition storedFortyTwo : World :=
  constructor blankPage {[ "colorMatchHighScore" := "42" ]} alwaysZero.

Lemma loadHighScore_value_witness :
  highScore (this (loadHighScore storedFortyTwo)) = Int (decimalValue 0 "42")
  /\ 0 <= decimalValue 0 "42".
Proof.
  apply (proj1 (proj2 (proj2 (loadHighScore_value storedFortyTwo))) "42").
  - vm_compute. reflexivity.
  - discriminate.
  - vm_compute. reflexivity.
  - vm_compute. discriminate.
Defined.

(** C7 as stated fails: a stored string that does not start with a number
    loads as NaN, not 0, and a stored string with a minus sign loads as a
    negative number. *)
Lemma loadHighScore_not_a_score :
  highScore
    (this (constructor blankPage {[ "colorMatchHighScore" := "abc" ]}
             alwaysZero)) = NaN /\
  highScore
    (this (constructor blankPage {[ "colorMatchHighScore" := "-5" ]}
             alwaysZero)) = Int (-5).
Proof. apply conj; vm_compute; reflexivity. Qed.

(** C10, as the code has it.  For a high score [n] with 0 <= n <= 2^53,
    [saveHighScore] followed by [loadHighScore] yields the high score [n]
    again, and the item written is the decimal numeral of [n]. *)
Theorem save_load_roundtrip (w : World) (n : Z) :
  highScore (this w) = Int n ->
  0 <= n <= 2 ^ 53 ->
  highScore (this (loadHighScore (saveHighScore w))) = Int n /\
  localStorage (saveHighScore w) !! "colorMatchHighScore"
    = Some (JS.decimal n).
Proof.
  intros Hh Hsafe.
  assert (Hn : 0 <= n < 10 ^ 21) by lia.
  unfold loadHighScore, saveHighScore, updateHighScoreDisplay.
  project. rewrite lookup_insert_eq, Hh.
  destruct (parseInt_toString n Hn) as [-> ->].
  rewrite (toString_decimal n Hn). split; reflexivity.
Qed.

Lemma save_load_roundtrip_witness :
  highScore (this (loadHighScore (saveHighScore afterGameOver))) = Int 10 /\
  localStorage (saveHighScore afterGameOver) !! "colorMatchHighScore"
    = Some (JS.decimal 10).
Proof.
  apply (save_load_roundtrip afterGameOver 10).
  - vm_compute. reflexivity.
  - lia.
Defined.

(** C10 as stated fails for the integer 10^21, which a Number holds
    exactly: [toString] writes it in exponent notation, of which [parseInt]
    reads the leading 1. *)
Lemma save_load_exponent :
  let w := onThis (setHighScore (Int (10 ^ 21))) freshGame in
  localStorage (saveHighScore w) !! "colorMatchHighScore" = Some "1e+21" /\
  highScore (this (loadHighScore (saveHighScore w))) = Int 1 /\
  Int 1 <> Int (10 ^ 21).
Proof. repeat apply conj; try (vm_compute; reflexivity). discriminate. Qed.

(** *** Guards *)

(** X14.  While [isPlaying] is false, [exitGame], [handleColorClick] and
    [startNewRound] return the world unchanged, and so does every key other
    than Space and Enter and every click on a color button.  A click on a
    disabled color button changes nothing in any state. *)
Theorem guarded_operations (w : World) :
  (isPlaying (this w) = false ->
   exitGame w = w /\
   (forall color, handleColorClick color w = w) /\
   (forall fuel, startNewRound fuel w = Some w) /\
   (forall fuel code,
      String.eqb code "Space" || String.eqb code "Enter" = false ->
      handleKeyPress fuel code w = Some w) /\
   (forall fuel color, dispatch fuel (Click (ColorBtn color)) w = Some w)) /\
  (forall fuel color button,
     colorButtons (dom w) !! color = Some button -> disabled button = true ->
     dispatch fuel (Click (ColorBtn color)) w = Some w).
Proof.
  split.
  - intros Hp. unfold exitGame, handleColorClick, startNewRound, handleKeyPress.
    cbn [dispatch]. unfold handleColorClick. rewrite Hp. cbn [negb].
    repeat split.
    + intros fuel code ->. reflexivity.
    + intros fuel color.
      destruct (colorButtons (dom w) !! color) as [button|]; [|reflexivity].
      destruct (disabled button); reflexivity.
  - intros fuel color button Hb Hd. cbn [dispatch]. rewrite Hb, Hd. reflexivity.
Qed.

Lemma guarded_operations_witness :
  exitGame afterGameOver = afterGameOver /\
  handleColorClick "blue" afterGameOver = afterGameOver.
Proof.
  assert (Hp : isPlaying (this afterGameOver) = false)
    by (vm_compute; reflexivity).
  destruct (proj1 (guarded_operations afterGameOver) Hp) as (He & Hc & _).
  exact (conj He (Hc "blue")).
Defined.

Definition scoreAndLimit (w : option World) : option (Z * Z) :=
  (fun w => (currentScore (this w), currentTimeLimit (this w))) <$> w.

(** C5, where the code departs from it.  After a correct answer at 100 ms
    the countdown is cancelled, the color buttons are disabled and the next
    round is due at 1100 ms, with score 10 and time limit 2900.  A click at
    200 ms on the button of the font color is dropped.  The key of the font
    color pressed at 200 ms is not: [handleKeyPress] and [handleColorClick]
    test [isPlaying], which is still true, so the answer is counted a second
    time - score 20, time limit 2800 - and a second [startNewRound] is
    scheduled. *)
Theorem answer_during_delay :
  isPlaying (this afterOneCorrectAnswer) = true /\
  countdownPending afterOneCorrectAnswer = false /\
  disabled <$> colorButtons (dom afterOneCorrectAnswer) !! "blue"
    = Some true /\
  scheduled NextRound afterOneCorrectAnswer = [1100] /\
  scoreAndLimit (Some afterOneCorrectAnswer) = Some (10, 2900) /\
  scoreAndLimit
    (step 5 afterOneCorrectAnswer (User 200 (Click (ColorBtn "blue"))))
    = Some (10, 2900) /\
  scoreAndLimit (step 5 afterOneCorrectAnswer (User 200 (KeyDown "KeyB")))
    = Some (20, 2800) /\
  scheduled NextRound
    <$> step 5 afterOneCorrectAnswer (User 200 (KeyDown "KeyB"))
    = Some [1100; 1200].
Proof. repeat apply conj; vm_compute; reflexivity. Qed.

(** *** Leaving a game *)

(** Space starts a game, the key of a wrong color is pressed at 100 ms and
    Escape at 200 ms. *)
Definition wrongAnswerThenEscape : list Input :=
  [User 0 (KeyDown "Space"); Fire 1; Fire 2; User 100 (KeyDown "KeyR");
   User 200 (KeyDown "Escape")].

Definition afterEscape : World :=
  default freshGame (run 5 freshGame wrongAnswerThenEscape).

(** The timers left pending fire in the order of their due times. *)
Definition afterEscapeTimers : option World :=
  run 5 afterEscape [Fire 5; Fire 4; Fire 7; Fire 6].

(** C8 on the code.  [exitGame] stops the game, sets the score to 0 and
    leaves the high score alone, but the [endGame] that the wrong answer
    scheduled for 1600 ms is still pending after it; when it fires, 1400 ms
    after the exit, the game-over screen is shown with a final score of 0. *)
Theorem exit_leaves_endGame_pending :
  run 5 freshGame wrongAnswerThenEscape = Some afterEscape /\
  isPlaying (this afterEscape) = false /\
  currentScore (this afterEscape) = 0 /\
  highScore (this afterEscape) = highScore (this freshGame) /\
  countdownPending afterEscape = false /\
  scheduled EndGame afterEscape = [1600] /\
  (now <$> afterEscapeTimers) = Some 1600 /\
  ((fun w => style (gameOverScreen (dom w)) !! "display") <$> afterEscapeTimers)
    = Some (Some "flex") /\
  ((fun w => textContent (finalScoreEl (dom w))) <$> afterEscapeTimers)
    = Some "0".
Proof. repeat apply conj; vm_compute; reflexivity. Qed.


(** ** Further properties of the engine *)

(** *** Carrying a property through the event loop *)

Lemma step_preserves (P : World -> Prop) :
  (forall t w, P w -> P (setNow t w)) ->
  (forall h w, P w -> P (clearTimeout h w)) ->
  (forall fuel w w', P w -> startGame fuel w = Some w' -> P w') ->
  (forall fuel w w', P w -> restartGame fuel w = Some w' -> P w') ->
  (forall w, P w -> P (exitGame w)) ->
  (forall w, P w -> P (returnToMainMenu w)) ->
  (forall color w, P w -> P (handleColorClick color w)) ->
  (forall fuel cb w w', P w -> runCallback fuel cb w = Some w' -> P w') ->
  forall fuel w i w', P w -> step fuel w i = Some w' -> P w'.
Proof.
  intros Hnow Hclear Hstart Hrestart Hexit Hmenu Hclick Hcb fuel w i w' HP.
  destruct i as [t [[| | | |color]|code]|h]; cbn [step dispatch].
  - destruct (_ && _); [|discriminate]. apply Hstart, Hnow, HP.
  - destruct (_ && _); [|discriminate]. intros [= <-]. apply Hexit, Hnow, HP.
  - destruct (_ && _); [|discriminate]. apply Hrestart, Hnow, HP.
  - destruct (_ && _); [|discriminate]. intros [= <-]. apply Hmenu, Hnow, HP.
  - destruct (_ && _); [|discriminate]. cbn [dom setNow].
    destruct (colorButtons (dom w) !! color) as [button|];
      [destruct (disabled button)|]; intros [= <-];
      try apply Hclick; apply Hnow, HP.
  - destruct (_ && _); [|discriminate].
    destruct (isPlaying (this (setNow t w))) eqn:Hp.
    + rewrite (handleKeyPress_playing fuel code _ Hp).
      destruct (keyMap !! code) as [color|]; intros [= <-].
      * apply Hclick, Hnow, HP.
      * destruct (bool_decide (code ∈ objectPrototype)).
        -- destruct (handleColorClickObject_wrong (setNow t w))
             as (color & _ & ->).
           apply Hclick, Hnow, HP.
        -- destruct (String.eqb code "Escape"); [apply Hexit|];
             apply Hnow, HP.
    + rewrite (handleKeyPress_idle fuel code _ Hp).
      destruct (_ || _); [apply Hstart, Hnow, HP|].
      intros [= <-]. apply Hnow, HP.
  - destruct List.find as [tm|]; [|discriminate].
    destruct forallb; [|discriminate].
    apply Hcb, Hnow, Hclear, HP.
Qed.

Lemma run_preserves (P : World -> Prop) fuel :
  (forall w i w', P w -> step fuel w i = Some w' -> P w') ->
  forall inputs w w', P w -> run fuel w inputs = Some w' -> P w'.
Proof.
  intros Hstep. induction inputs as [|i rest IH]; intros w w' HP; cbn [run].
  - intros [= <-]. exact HP.
  - destruct (step fuel w i) as [w1|] eqn:Hs; [|discriminate].
    apply IH. exact (Hstep w i w1 HP Hs).
Qed.

Lemma reachable_preserves (P : World -> Prop) :
  (forall page storage rnd, P (constructor page storage rnd)) ->
  (forall fuel w i w', P w -> step fuel w i = Some w' -> P w') ->
  forall w, reachable w -> P w.
Proof.
  intros Hinit Hstep. induction 1 as [page storage rnd|fuel w w' i _ IH Hs].
  - apply Hinit.
  - exact (Hstep fuel w i w' IH Hs).
Qed.

(** *** What showing a round leaves alone *)

Lemma showRound_frame w :
  let w' := startTimer (enableColorButtons (updateWordDisplay w)) in
  gameArea (dom w') = gameArea (dom w) /\
  currentScoreEl (dom w') = currentScoreEl (dom w) /\
  highScoreEl (dom w') = highScoreEl (dom w) /\
  gameOverScreen (dom w') = gameOverScreen (dom w) /\
  finalScoreEl (dom w') = finalScoreEl (dom w) /\
  highScoreMessage (dom w') = highScoreMessage (dom w) /\
  feedback (dom w') = feedback (dom w).
Proof.
  unfold updateWordDisplay. cbn [this onDom].
  destruct (currentFontColor (this w)); repeat apply conj; reflexivity.
Qed.

Lemma startNewRound_frame fuel w w' :
  startNewRound fuel w = Some w' ->
  gameArea (dom w') = gameArea (dom w) /\
  currentScoreEl (dom w') = currentScoreEl (dom w) /\
  highScoreEl (dom w') = highScoreEl (dom w) /\
  gameOverScreen (dom w') = gameOverScreen (dom w) /\
  finalScoreEl (dom w') = finalScoreEl (dom w) /\
  highScoreMessage (dom w') = highScoreMessage (dom w) /\
  feedback (dom w') = feedback (dom w).
Proof.
  unfold startNewRound. destruct (isPlaying (this w)); cbn [negb].
  - destruct generateRoundData as [w1|] eqn:Hg; [|discriminate].
    intros [= <-]. apply generateRoundData_this in Hg.
    destruct Hg as (_ & _ & _ & _ & Hdom & _).
    rewrite <- Hdom. apply showRound_frame.
  - intros [= <-]. repeat apply conj; reflexivity.
Qed.

(** *** What the page shows *)

(** The high-score element shows [highScore]. *)
Definition highScoreShown (w : World) : Prop :=
  textContent (highScoreEl (dom w)) = JS.toString (highScore (this w)).

(** While a game is in play the game area carries the class [playing] and
    the game-over screen is hidden. *)
Definition playingShown (w : World) : Prop :=
  isPlaying (this w) = true ->
  "playing" ∈ classList (gameArea (dom w)) /\
  style (gameOverScreen (dom w)) !! "display" = Some "none".

Lemma startNewRound_playing fuel w w' :
  startNewRound fuel w = Some w' ->
  isPlaying (this w') = isPlaying (this w) /\
  highScore (this w') = highScore (this w) /\
  currentScore (this w') = currentScore (this w).
Proof.
  intros H. apply startNewRound_session in H. destruct H as [H _].
  repeat apply conj.
  - exact (f_equal playing H).
  - exact (f_equal best H).
  - exact (f_equal score H).
Qed.

Lemma highScoreShown_startGame fuel w w' :
  highScoreShown w -> startGame fuel w = Some w' -> highScoreShown w'.
Proof.
  unfold highScoreShown, startGame. intros HP H.
  destruct (startNewRound_frame _ _ _ H) as (_ & _ & -> & _).
  destruct (startNewRound_playing _ _ _ H) as (_ & -> & _).
  exact HP.
Qed.

Lemma highScoreShown_step fuel w i w' :
  highScoreShown w -> step fuel w i = Some w' -> highScoreShown w'.
Proof.
  apply step_preserves; clear.
  - intros t w H. exact H.
  - intros h w H. exact H.
  - exact highScoreShown_startGame.
  - intros fuel w w' HP. unfold restartGame.
    apply highScoreShown_startGame. exact HP.
  - intros w HP. unfold exitGame.
    destruct (isPlaying (this w)); exact HP.
  - intros w HP. exact HP.
  - intros color w HP. unfold handleColorClick.
    destruct (isPlaying (this w)); [|exact HP]. cbn [negb].
    destruct (bool_decide _); exact HP.
  - intros fuel cb w w' HP.
    destruct cb; cbn [runCallback]; try (intros [= <-]; exact HP).
    + intros H. unfold highScoreShown.
      destruct (startNewRound_frame _ _ _ H) as (_ & _ & -> & _).
      destruct (startNewRound_playing _ _ _ H) as (_ & -> & _).
      exact HP.
    + intros [= <-]. unfold highScoreShown, endGame. project.
      destruct (gt_num _ _); [reflexivity|exact HP].
Qed.

(** X1.  In every reachable state the high-score element shows the current
    value of [highScore]. *)
Theorem high_score_always_shown (w : World) :
  reachable w ->
  textContent (highScoreEl (dom w)) = JS.toString (highScore (this w)).
Proof.
  revert w. apply (reachable_preserves highScoreShown).
  - reflexivity.
  - exact highScoreShown_step.
Qed.

Lemma high_score_always_shown_witness :
  textContent (highScoreEl (dom afterGameOver))
    = JS.toString (highScore (this afterGameOver)).
Proof.
  apply high_score_always_shown.
  apply (run_reachable 5 (oneCorrectAnswer ++ thenOneWrongAnswer)%list freshGame).
  - apply reachable_constructor.
  - vm_compute. reflexivity.
Defined.

Lemma playingShown_startGame fuel w w' :
  startGame fuel w = Some w' -> playingShown w'.
Proof.
  unfold playingShown, startGame. intros H _.
  destruct (startNewRound_frame _ _ _ H) as (-> & _ & _ & -> & _).
  project_dom. split.
  - apply elem_of_union. right. apply elem_of_singleton. reflexivity.
  - apply lookup_insert_eq.
Qed.

Lemma playingShown_step fuel w i w' :
  playingShown w -> step fuel w i = Some w' -> playingShown w'.
Proof.
  apply step_preserves; clear.
  - intros t w H. exact H.
  - intros h w H. exact H.
  - intros fuel w w' _. apply playingShown_startGame.
  - intros fuel w w' _. unfold restartGame. apply playingShown_startGame.
  - intros w HP. unfold exitGame.
    destruct (isPlaying (this w)) eqn:Hp; [|exact HP]. discriminate.
  - intros w _. discriminate.
  - intros color w HP. unfold handleColorClick.
    destruct (isPlaying (this w)) eqn:Hp; [|exact HP]. cbn [negb].
    destruct (HP Hp) as [Hcl Hst].
    destruct (bool_decide _); intros _; split; try exact Hst; try exact Hcl.
    unfold handleIncorrectAnswer, showFeedback. project. project_dom.
    apply elem_of_union. left. exact Hcl.
  - intros fuel cb w w' HP.
    destruct cb; cbn [runCallback]; try (intros [= <-]; exact HP).
    + intros H. unfold playingShown.
      destruct (startNewRound_frame _ _ _ H) as (-> & _ & _ & -> & _).
      destruct (startNewRound_playing _ _ _ H) as (-> & _).
      exact HP.
    + intros [= <-] Hp. destruct (HP Hp) as [Hcl Hst]. split; [|exact Hst].
      project_dom. apply elem_of_difference. split; [exact Hcl|].
      rewrite elem_of_singleton. discriminate.
    + intros [= <-]. unfold playingShown, endGame. project.
      destruct (gt_num _ _); discriminate.
Qed.

(** When no game is in play the game area does not carry [playing]. *)
Definition idleShown (w : World) : Prop :=
  isPlaying (this w) = false -> "playing" ∉ classList (gameArea (dom w)).

Lemma not_elem_of_remove (c : string) (X : gset string) : c ∉ X ∖ {[ c ]}.
Proof.
  rewrite elem_of_difference, elem_of_singleton. intros [_ H]. apply H.
  reflexivity.
Qed.

Lemma idleShown_startGame fuel w w' :
  startGame fuel w = Some w' -> idleShown w'.
Proof.
  unfold idleShown, startGame. intros H.
  destruct (startNewRound_playing _ _ _ H) as (-> & _). discriminate.
Qed.

Lemma idleShown_step fuel w i w' :
  idleShown w -> step fuel w i = Some w' -> idleShown w'.
Proof.
  apply step_preserves; clear.
  - intros t w H. exact H.
  - intros h w H. exact H.
  - intros fuel w w' _. apply idleShown_startGame.
  - intros fuel w w' _. unfold restartGame. apply idleShown_startGame.
  - intros w HP. unfold exitGame.
    destruct (isPlaying (this w)) eqn:Hp; [|exact HP].
    intros _. apply not_elem_of_remove.
  - intros w _ _. apply not_elem_of_remove.
  - intros color w HP. unfold handleColorClick.
    destruct (isPlaying (this w)) eqn:Hp; [|exact HP]. cbn [negb].
    destruct (bool_decide _); intros Hf; exfalso; revert Hf;
      change (isPlaying (this w) = false -> False); rewrite Hp; discriminate.
  - intros fuel cb w w' HP.
    destruct cb; cbn [runCallback]; try (intros [= <-]; exact HP).
    + intros H. unfold idleShown.
      destruct (startNewRound_frame _ _ _ H) as (-> & _).
      destruct (startNewRound_playing _ _ _ H) as (-> & _).
      exact HP.
    + intros [= <-] Hp. project_dom. specialize (HP Hp).
      rewrite elem_of_difference. intros [Hin _]. exact (HP Hin).
    + intros [= <-] _. unfold endGame. project.
      destruct (gt_num _ _); apply not_elem_of_remove.
Qed.

(** X2.  In every reachable state in which a game is in play, the game area
    carries the class [playing] and the game-over screen is hidden.  On a
    page whose game area does not start with that class, the game area
    carries it in no state in which no game is in play. *)
Theorem playing_is_shown :
  (forall w,
     reachable w -> isPlaying (this w) = true ->
     "playing" ∈ classList (gameArea (dom w)) /\
     style (gameOverScreen (dom w)) !! "display" = Some "none") /\
  (forall page storage rnd fuel inputs w,
     "playing" ∉ classList (gameArea page) ->
     run fuel (constructor page storage rnd) inputs = Some w ->
     isPlaying (this w) = false ->
     "playing" ∉ classList (gameArea (dom w))).
Proof.
  split.
  - apply (reachable_preserves playingShown).
    + discriminate.
    + exact playingShown_step.
  - intros page storage rnd fuel inputs w Hpage Hrun.
    apply (run_preserves idleShown fuel (idleShown_step fuel) inputs
             (constructor page storage rnd) w); [|exact Hrun].
    intros _. exact Hpage.
Qed.

Lemma playing_is_shown_witness :
  ("playing" ∈ classList (gameArea (dom afterOneCorrectAnswer)) /\
   style (gameOverScreen (dom afterOneCorrectAnswer)) !! "display"
     = Some "none") /\
  "playing" ∉ classList (gameArea (dom afterGameOver)).
Proof.
  split.
  - apply (proj1 playing_is_shown).
    + apply (run_reachable 5 oneCorrectAnswer freshGame).
      * apply reachable_constructor.
      * vm_compute. reflexivity.
    + vm_compute. reflexivity.
  - apply (proj2 playing_is_shown blankPage ∅ redThenBlue 5%nat
             (oneCorrectAnswer ++ thenOneWrongAnswer)%list).
    + apply not_elem_of_empty.
    + vm_compute. reflexivity.
    + vm_compute. reflexivity.
Defined.

(** The score element shows [currentScore]. *)
Definition scoreShown (w : World) : Prop :=
  textContent (currentScoreEl (dom w))
    = JS.toString (Int (currentScore (this w))).

Lemma scoreShown_startGame fuel w w' :
  startGame fuel w = Some w' -> scoreShown w'.
Proof.
  unfold scoreShown, startGame. intros H.
  destruct (startNewRound_frame _ _ _ H) as (_ & -> & _).
  destruct (startNewRound_playing _ _ _ H) as (_ & _ & ->).
  reflexivity.
Qed.

Lemma scoreShown_step fuel w i w' :
  scoreShown w -> step fuel w i = Some w' -> scoreShown w'.
Proof.
  apply step_preserves; clear.
  - intros t w H. exact H.
  - intros h w H. exact H.
  - intros fuel w w' _. apply scoreShown_startGame.
  - intros fuel w w' _. unfold restartGame. apply scoreShown_startGame.
  - intros w HP. unfold exitGame.
    destruct (isPlaying (this w)); [reflexivity|exact HP].
  - intros w _. reflexivity.
  - intros color w HP. unfold handleColorClick.
    destruct (isPlaying (this w)); [|exact HP]. cbn [negb].
    destruct (bool_decide _); [reflexivity|exact HP].
  - intros fuel cb w w' HP.
    destruct cb; cbn [runCallback]; try (intros [= <-]; exact HP).
    + intros H. unfold scoreShown.
      destruct (startNewRound_frame _ _ _ H) as (_ & -> & _).
      destruct (startNewRound_playing _ _ _ H) as (_ & _ & ->).
      exact HP.
    + intros [= <-]. unfold scoreShown, endGame. project.
      destruct (gt_num _ _); exact HP.
Qed.

Lemma startsGame_scoreShown fuel w i w' :
  startsGame w i = true -> step fuel w i = Some w' -> scoreShown w'.
Proof.
  destruct i as [t [[| | | |color]|code]|h]; cbn [startsGame step dispatch];
    try discriminate; intros Hs;
    (destruct ((now w <=? t) && forallb _ (timers w)); [|discriminate]).
  - apply scoreShown_startGame.
  - unfold restartGame. apply scoreShown_startGame.
  - apply andb_prop in Hs. destruct Hs as [Hp Hkey].
    apply negb_true_iff in Hp.
    rewrite (handleKeyPress_idle fuel code (setNow t w) Hp), Hkey.
    apply scoreShown_startGame.
Qed.

(** X3.  A turn of the event loop that starts a game leaves the score
    element showing [currentScore], and every turn keeps it so; on a page
    whose score element starts at 0 it shows [currentScore] in every state. *)
Theorem score_always_shown :
  (forall fuel w i w',
     step fuel w i = Some w' ->
     startsGame w i = true \/
     textContent (currentScoreEl (dom w))
       = JS.toString (Int (currentScore (this w))) ->
     textContent (currentScoreEl (dom w'))
       = JS.toString (Int (currentScore (this w')))) /\
  (forall page storage rnd fuel inputs w,
     textContent (currentScoreEl page) = "0" ->
     run fuel (constructor page storage rnd) inputs = Some w ->
     textContent (currentScoreEl (dom w))
       = JS.toString (Int (currentScore (this w)))).
Proof.
  split.
  - intros fuel w i w' Hs [Hstart|HP].
    + exact (startsGame_scoreShown fuel w i w' Hstart Hs).
    + exact (scoreShown_step fuel w i w' HP Hs).
  - intros page storage rnd fuel inputs w Hpage Hrun.
    apply (run_preserves scoreShown fuel (scoreShown_step fuel) inputs
             (constructor page storage rnd) w); [|exact Hrun].
    exact Hpage.
Qed.

Lemma score_always_shown_witness :
  textContent (currentScoreEl (dom afterOneCorrectAnswer))
    = JS.toString (Int (currentScore (this afterOneCorrectAnswer))).
Proof.
  assert (Hstart : step 5 freshGame (User 0 (KeyDown "Space"))
                     = Some afterStartKey) by (vm_compute; reflexivity).
  assert (Hshown : scoreShown afterStartKey).
  { apply (proj1 score_always_shown 5%nat freshGame
             (User 0 (KeyDown "Space")) afterStartKey Hstart).
    left. vm_compute. reflexivity. }
  apply (run_preserves scoreShown 5 (scoreShown_step 5)
           [Fire 1; Fire 2; User 100 (KeyDown "KeyB")]
           afterStartKey afterOneCorrectAnswer Hshown).
  vm_compute. reflexivity.
Defined.

(** When the game-over screen is visible no game is in play, the
    final-score element shows [currentScore], and a visible new-high-score
    message means that [currentScore] is the high score. *)
Definition gameOverShown (w : World) : Prop :=
  style (gameOverScreen (dom w)) !! "display" = Some "flex" ->
  isPlaying (this w) = false /\
  textContent (finalScoreEl (dom w))
    = JS.toString (Int (currentScore (this w))) /\
  (style (highScoreMessage (dom w)) !! "display" = Some "block" ->
   highScore (this w) = Int (currentScore (this w))).

Lemma gameOverShown_startGame fuel w w' :
  startGame fuel w = Some w' -> gameOverShown w'.
Proof.
  unfold gameOverShown, startGame. intros H.
  destruct (startNewRound_frame _ _ _ H) as (_ & _ & _ & -> & _).
  unfold updateCurrentScoreDisplay. project. project_dom.
  rewrite lookup_insert_eq. discriminate.
Qed.

Lemma gameOverShown_playing w w' :
  gameOverShown w -> isPlaying (this w) = true ->
  gameOverScreen (dom w') = gameOverScreen (dom w) ->
  gameOverShown w'.
Proof.
  intros HP Hp Hscreen Hflex. rewrite Hscreen in Hflex.
  destruct (HP Hflex) as [Hidle _]. congruence.
Qed.

Lemma gameOverShown_step fuel w i w' :
  gameOverShown w -> step fuel w i = Some w' -> gameOverShown w'.
Proof.
  apply step_preserves; clear.
  - intros t w H. exact H.
  - intros h w H. exact H.
  - intros fuel w w' _. apply gameOverShown_startGame.
  - intros fuel w w' _. unfold restartGame. apply gameOverShown_startGame.
  - intros w HP. unfold exitGame.
    destruct (isPlaying (this w)) eqn:Hp; [|exact HP]. cbn [negb].
    apply (gameOverShown_playing w _ HP Hp). reflexivity.
  - intros w _. unfold gameOverShown, returnToMainMenu,
      updateCurrentScoreDisplay. project. project_dom.
    rewrite lookup_insert_eq. discriminate.
  - intros color w HP. unfold handleColorClick.
    destruct (isPlaying (this w)) eqn:Hp; [|exact HP]. cbn [negb].
    destruct (bool_decide _);
      apply (gameOverShown_playing w _ HP Hp); reflexivity.
  - intros fuel cb w w' HP.
    destruct cb; cbn [runCallback]; try (intros [= <-]; exact HP).
    + intros H. unfold gameOverShown.
      destruct (startNewRound_frame _ _ _ H) as (_ & _ & _ & -> & -> & -> & _).
      destruct (startNewRound_playing _ _ _ H) as (-> & -> & ->).
      exact HP.
    + intros [= <-] _. unfold endGame. project.
      destruct (gt_num _ _); unfold showGameOverScreen, updateHighScoreDisplay,
        saveHighScore; project; project_dom;
        (split; [reflexivity|split; [reflexivity|]]);
        rewrite lookup_insert_eq; [reflexivity|discriminate].
Qed.

(** X4.  On a page whose game-over screen is not visible at first: whenever
    the game-over screen is visible, no game is in play and the final-score
    element shows [currentScore]; if the new-high-score message is visible
    too, [currentScore] is the high score. *)
Theorem game_over_screen (page : Dom) (storage : gmap string string)
    (rnd : nat -> Q) (fuel : nat) (inputs : list Input) (w : World) :
  style (gameOverScreen page) !! "display" <> Some "flex" ->
  run fuel (constructor page storage rnd) inputs = Some w ->
  style (gameOverScreen (dom w)) !! "display" = Some "flex" ->
  isPlaying (this w) = false /\
  textContent (finalScoreEl (dom w))
    = JS.toString (Int (currentScore (this w))) /\
  (style (highScoreMessage (dom w)) !! "display" = Some "block" ->
   highScore (this w) = Int (currentScore (this w))).
Proof.
  intros Hpage Hrun.
  apply (run_preserves gameOverShown fuel (gameOverShown_step fuel) inputs
           (constructor page storage rnd) w); [|exact Hrun].
  intros Hflex. contradiction.
Qed.

Lemma game_over_screen_witness :
  isPlaying (this afterGameOver) = false /\
  textContent (finalScoreEl (dom afterGameOver))
    = JS.toString (Int (currentScore (this afterGameOver))) /\
  (style (highScoreMessage (dom afterGameOver)) !! "display" = Some "block" ->
   highScore (this afterGameOver) = Int (currentScore (this afterGameOver))).
Proof.
  apply (game_over_screen blankPage ∅ redThenBlue 5
           (oneCorrectAnswer ++ thenOneWrongAnswer)%list).
  - vm_compute. discriminate.
  - vm_compute. reflexivity.
  - vm_compute. reflexivity.
Defined.

(** *** Timer handles *)

(** Every pending timer has a handle below [n], and the handle [g], if any,
    is below [n] and names only timers that run [handleTimeUp]. *)
Definition fresh (ts : list Timer) (n : nat) (g : option nat) : Prop :=
  (forall tm, tm ∈ ts -> (handle tm < n)%nat) /\
  (forall h, g = Some h ->
     (h < n)%nat /\
     forall tm, tm ∈ ts -> handle tm = h -> callback tm = TimeUp).

Definition timersFresh (w : World) : Prop :=
  fresh (timers w) (nextHandle w) (gameTimer (this w)).

Lemma fresh_add ts n g d cb :
  fresh ts n g ->
  fresh (ts ++ [{| handle := n; due := d; callback := cb |}]) (S n) g.
Proof.
  intros [Hlt Hg]. split.
  - intros tm Hin. apply elem_of_app in Hin. destruct Hin as [Hin|Hin].
    + specialize (Hlt tm Hin). lia.
    + apply list_elem_of_singleton in Hin. subst tm. cbn. lia.
  - intros h Hh. destruct (Hg h Hh) as [Hhn Hcb]. split; [lia|].
    intros tm Hin Heq. apply elem_of_app in Hin. destruct Hin as [Hin|Hin].
    + exact (Hcb tm Hin Heq).
    + apply list_elem_of_singleton in Hin. subst tm. cbn in Heq. lia.
Qed.

Lemma fresh_countdown ts n g d :
  fresh ts n g ->
  fresh (ts ++ [{| handle := n; due := d; callback := TimeUp |}]) (S n)
    (Some n).
Proof.
  intros [Hlt _]. split.
  - intros tm Hin. apply elem_of_app in Hin. destruct Hin as [Hin|Hin].
    + specialize (Hlt tm Hin). lia.
    + apply list_elem_of_singleton in Hin. subst tm. cbn. lia.
  - intros h [= <-]. split; [lia|].
    intros tm Hin Heq. apply elem_of_app in Hin. destruct Hin as [Hin|Hin].
    + specialize (Hlt tm Hin). lia.
    + apply list_elem_of_singleton in Hin. subst tm. reflexivity.
Qed.

Lemma fresh_clear ts n g (h : option nat) :
  fresh ts n g ->
  fresh match h with
        | None => ts
        | Some k => filter (fun t => handle t ≠ k) ts
        end n g.
Proof.
  intros [Hlt Hg]. destruct h as [k|]; [|split; assumption]. split.
  - intros tm Hin. apply list_elem_of_filter in Hin. apply Hlt, Hin.
  - intros h Hh. destruct (Hg h Hh) as [Hhn Hcb]. split; [exact Hhn|].
    intros tm Hin. apply list_elem_of_filter in Hin. apply Hcb, Hin.
Qed.

Lemma generateRoundData_timers fuel w w' :
  generateRoundData fuel w = Some w' ->
  timers w' = timers w /\ nextHandle w' = nextHandle w /\
  now w' = now w /\ gameTimer (this w') = gameTimer (this w) /\
  currentTimeLimit (this w') = currentTimeLimit (this w) /\
  isPlaying (this w') = isPlaying (this w).
Proof.
  unfold generateRoundData, Math_random.
  destruct drawFontColorIndex as [[i w1]|] eqn:Hd; [|discriminate].
  intros [= <-]. apply drawFontColorIndex_spec in Hd. project.
  destruct Hd as (_ & Ht & _ & _ & Htm & Hn & Hnow & _).
  rewrite Ht. repeat apply conj; try assumption; reflexivity.
Qed.

Lemma timersFresh_showRound w :
  timersFresh w ->
  timersFresh (startTimer (enableColorButtons (updateWordDisplay w))).
Proof.
  unfold timersFresh, updateWordDisplay. project.
  destruct (currentFontColor (this w)); unfold startTimer, enableColorButtons;
    project; intros H; apply fresh_countdown with (g := gameTimer (this w));
    apply fresh_add, fresh_add, H.
Qed.

Lemma timersFresh_startNewRound fuel w w' :
  timersFresh w -> startNewRound fuel w = Some w' -> timersFresh w'.
Proof.
  intros HP. unfold startNewRound. destruct (isPlaying (this w)); cbn [negb].
  - destruct generateRoundData as [w1|] eqn:Hg; [|discriminate].
    intros [= <-]. apply timersFresh_showRound.
    apply generateRoundData_timers in Hg.
    destruct Hg as (Htm & Hn & _ & Hg & _).
    unfold timersFresh. rewrite Htm, Hn, Hg. exact HP.
  - intros [= <-]. exact HP.
Qed.

Lemma timersFresh_startGame fuel w w' :
  timersFresh w -> startGame fuel w = Some w' -> timersFresh w'.
Proof.
  intros HP. unfold startGame. apply timersFresh_startNewRound. exact HP.
Qed.

Lemma timersFresh_handleColorClick color w :
  timersFresh w -> timersFresh (handleColorClick color w).
Proof.
  intros HP. unfold handleColorClick.
  destruct (isPlaying (this w)); [|exact HP]. cbn [negb].
  destruct (bool_decide _);
    unfold timersFresh, handleCorrectAnswer, handleIncorrectAnswer,
      showFeedback, updateCurrentScoreDisplay, disableColorButtons;
    project; repeat apply fresh_add; apply fresh_clear, HP.
Qed.

Lemma timersFresh_step fuel w i w' :
  timersFresh w -> step fuel w i = Some w' -> timersFresh w'.
Proof.
  apply step_preserves; clear.
  - intros t w H. exact H.
  - intros h w H. unfold timersFresh, clearTimeout. project.
    apply fresh_clear, H.
  - exact timersFresh_startGame.
  - intros fuel w w' HP. unfold restartGame. apply timersFresh_startGame.
    exact HP.
  - intros w HP. unfold exitGame.
    destruct (isPlaying (this w)); [|exact HP]. cbn [negb].
    unfold timersFresh, showFeedback, updateCurrentScoreDisplay. project.
    apply fresh_add, fresh_clear, HP.
  - intros w HP. exact HP.
  - exact timersFresh_handleColorClick.
  - intros fuel cb w w' HP.
    destruct cb; cbn [runCallback]; try (intros [= <-]; exact HP).
    + intros [= <-].
      unfold timersFresh, handleTimeUp, showFeedback, disableColorButtons.
      project. apply fresh_add, fresh_add, HP.
    + apply timersFresh_startNewRound, HP.
    + intros [= <-]. unfold timersFresh, endGame. project.
      destruct (gt_num _ _);
        unfold showGameOverScreen, updateHighScoreDisplay, saveHighScore;
        project; apply fresh_clear, HP.
Qed.

Lemma reachable_timersFresh w : reachable w -> timersFresh w.
Proof.
  revert w. apply (reachable_preserves timersFresh).
  - intros page storage rnd. split.
    + intros tm Hin. apply elem_of_nil in Hin. contradiction.
    + discriminate.
  - exact timersFresh_step.
Qed.

(** X5.  In every reachable state the handle in [gameTimer] was handed out
    by an earlier [setTimeout], and any pending timer it names is a round
    countdown: [clearTimeout(this.gameTimer)] cancels nothing else. *)
Theorem gameTimer_names_countdown (w : World) (h : nat) (tm : Timer) :
  reachable w ->
  gameTimer (this w) = Some h ->
  (h < nextHandle w)%nat /\
  (tm ∈ timers w -> handle tm = h -> callback tm = TimeUp).
Proof.
  intros Hr Hg. destruct (reachable_timersFresh w Hr) as [_ Hfresh].
  destruct (Hfresh h Hg) as [Hlt Hcb]. split; [exact Hlt|apply Hcb].
Qed.

Lemma gameTimer_names_countdown_witness :
  (3 < nextHandle afterStartKey)%nat /\
  ({| handle := 3; due := 3000; callback := TimeUp |} ∈ timers afterStartKey ->
   3%nat = 3%nat -> TimeUp = TimeUp).
Proof.
  apply (gameTimer_names_countdown afterStartKey 3
           {| handle := 3; due := 3000; callback := TimeUp |}).
  - apply (run_reachable 5 [User 0 (KeyDown "Space")] freshGame).
    + apply reachable_constructor.
    + vm_compute. reflexivity.
  - vm_compute. reflexivity.
Defined.

(** *** The round countdown *)

Lemma existsb_cleared h ts :
  existsb (fun tm => Nat.eqb (handle tm) h)
    (filter (fun t => handle t ≠ h) ts) = false.
Proof.
  induction ts as [|tm ts IH]; [reflexivity|].
  rewrite filter_cons. destruct (decide (handle tm ≠ h)) as [Hne|_]; [|exact IH].
  cbn [existsb]. rewrite IH, orb_false_r. apply Nat.eqb_neq. exact Hne.
Qed.

Lemma disabled_after_fmap (b0 : bool) (f : Element -> Element)
    (buttons : gmap string Element) c button :
  (forall e, disabled (f e) = b0) ->
  (f <$> buttons) !! c = Some button -> disabled button = b0.
Proof.
  intros Hf. rewrite lookup_fmap.
  destruct (buttons !! c) as [e|]; [|discriminate].
  intros [= <-]. apply Hf.
Qed.

Ltac countdown_gone Hlt :=
  rewrite ?existsb_app, existsb_cleared; cbn [existsb handle orb];
  repeat match goal with
         | |- context [Nat.eqb (S ?n) ?h] =>
             replace (Nat.eqb (S n) h) with false
               by (symmetry; apply Nat.eqb_neq; lia)
         | |- context [Nat.eqb (nextHandle ?w) ?h] =>
             replace (Nat.eqb (nextHandle w) h) with false
               by (symmetry; apply Nat.eqb_neq; lia)
         end;
  reflexivity.

(** X6.  In a reachable state with a game in play, [handleColorClick] - for
    a right or a wrong color - and [exitGame] leave no timer pending under
    the handle in [gameTimer], and so does [endGame] in any reachable
    state.  After [handleColorClick] every color button is disabled.
    Nothing is said of a countdown whose handle [gameTimer] no longer
    holds. *)
Theorem answer_cancels_countdown (w : World) :
  reachable w ->
  countdownPending (endGame w) = false /\
  (isPlaying (this w) = true ->
   countdownPending (exitGame w) = false /\
   forall color,
     countdownPending (handleColorClick color w) = false /\
     forall c button,
       colorButtons (dom (handleColorClick color w)) !! c = Some button ->
       disabled button = true).
Proof.
  intros Hr. pose proof (reachable_timersFresh w Hr) as [_ Hfresh].
  assert (Hlt : forall h, gameTimer (this w) = Some h -> (h < nextHandle w)%nat)
    by (intros h Hh; apply (Hfresh h Hh)).
  clear Hfresh Hr. split; [|intros Hp; split; [|intros color; split]].
  - unfold countdownPending, endGame. project.
    destruct (gt_num _ _);
      unfold showGameOverScreen, updateHighScoreDisplay, saveHighScore;
      project; (destruct (gameTimer (this w)) as [h|]; [|reflexivity]);
      apply existsb_cleared.
  - unfold countdownPending, exitGame. rewrite Hp. cbn [negb].
    unfold showFeedback, updateCurrentScoreDisplay. project.
    destruct (gameTimer (this w)) as [h|]; [|reflexivity].
    specialize (Hlt h eq_refl). countdown_gone Hlt.
  - unfold countdownPending, handleColorClick. rewrite Hp. cbn [negb].
    destruct (bool_decide _);
      unfold handleCorrectAnswer, handleIncorrectAnswer, showFeedback,
        updateCurrentScoreDisplay, disableColorButtons; project;
      (destruct (gameTimer (this w)) as [h|]; [|reflexivity]);
      specialize (Hlt h eq_refl); countdown_gone Hlt.
  - intros c button. unfold handleColorClick. rewrite Hp. cbn [negb].
    destruct (bool_decide _);
      apply (disabled_after_fmap true); reflexivity.
Qed.

Lemma answer_cancels_countdown_witness :
  countdownPending (handleColorClick "red" afterStartKey) = false /\
  countdownPending (handleColorClick "blue" afterStartKey) = false.
Proof.
  assert (Hr : reachable afterStartKey).
  { apply (run_reachable 5 [User 0 (KeyDown "Space")] freshGame).
    - apply reachable_constructor.
    - vm_compute. reflexivity. }
  assert (Hp : isPlaying (this afterStartKey) = true)
    by (vm_compute; reflexivity).
  destruct (answer_cancels_countdown afterStartKey Hr) as [_ H].
  destruct (H Hp) as [_ Hclick].
  exact (conj (proj1 (Hclick "red")) (proj1 (Hclick "blue"))).
Defined.

(** X7.  When a game is in play and round generation returns,
    [startNewRound] shows the word drawn in the font color drawn, enables
    every color button, and starts a countdown of [currentTimeLimit] ms
    whose handle it stores in [gameTimer]. *)
Theorem round_is_armed (fuel : nat) (w w' : World) :
  isPlaying (this w) = true ->
  startNewRound fuel w = Some w' ->
  (exists h,
     gameTimer (this w') = Some h /\
     {| handle := h; due := now w + currentTimeLimit (this w);
        callback := TimeUp |} ∈ timers w') /\
  countdownPending w' = true /\
  (forall c button,
     colorButtons (dom w') !! c = Some button -> disabled button = false) /\
  textContent (colorWord (dom w')) = domString (currentWord (this w')) /\
  (forall c,
     currentFontColor (this w') = Some c ->
     style (colorWord (dom w')) !! "color" = Some c).
Proof.
  intros Hp. unfold startNewRound. rewrite Hp. cbn [negb].
  destruct generateRoundData as [w1|] eqn:Hg; [|discriminate].
  intros [= <-]. apply generateRoundData_timers in Hg.
  destruct Hg as (_ & _ & Hnow & _ & Hlimit & _). rewrite <- Hnow, <- Hlimit.
  clear. unfold updateWordDisplay, countdownPending. project.
  destruct (currentFontColor (this w1)) as [font|] eqn:Hfont;
    unfold startTimer, enableColorButtons; project; project_dom;
    (split; [eexists; split; [reflexivity|]|
     split; [|split; [|split; [reflexivity|]]]]).
  - apply elem_of_app. right. apply list_elem_of_singleton. reflexivity.
  - rewrite !existsb_app. cbn [existsb handle]. rewrite Nat.eqb_refl.
    rewrite orb_true_r. reflexivity.
  - intros c button. apply (disabled_after_fmap false). reflexivity.
  - intros c Hc. rewrite Hfont in Hc. injection Hc as <-.
    apply lookup_insert_eq.
  - apply elem_of_app. right. apply list_elem_of_singleton. reflexivity.
  - rewrite !existsb_app. cbn [existsb handle]. rewrite Nat.eqb_refl.
    rewrite orb_true_r. reflexivity.
  - intros c button. apply (disabled_after_fmap false). reflexivity.
  - intros c Hc. rewrite Hfont in Hc. discriminate Hc.
Qed.

Lemma round_is_armed_witness :
  (exists h,
     gameTimer (this afterStartKey) = Some h /\
     {| handle := h; due := 0 + 3000; callback := TimeUp |}
       ∈ timers afterStartKey) /\
  countdownPending afterStartKey = true.
Proof.
  pose (w0 := updateCurrentScoreDisplay
                (onDom (onGameOverScreen (setStyle "display" "none"))
                   (onDom (onGameArea (addClass "playing"))
                      (onThis (setCurrentTimeLimit 3000)
                         (onThis (setCurrentScore 0)
                            (onThis (setIsPlaying true) freshGame)))))).
  assert (Hp : isPlaying (this w0) = true) by reflexivity.
  assert (Hs : startNewRound 5 w0 = Some afterStartKey)
    by (vm_compute; reflexivity).
  destruct (round_is_armed 5 w0 afterStartKey Hp Hs) as (Harm & Hpend & _).
  exact (conj Harm Hpend).
Defined.

(** *** How the operations compose *)

Lemma World_eq w1 w2 :
  this w1 = this w2 -> dom w1 = dom w2 -> localStorage w1 = localStorage w2 ->
  timers w1 = timers w2 -> nextHandle w1 = nextHandle w2 -> now w1 = now w2 ->
  random w1 = random w2 -> cursor w1 = cursor w2 -> w1 = w2.
Proof. destruct w1, w2. cbn. intros; subst; reflexivity. Qed.

Lemma Dom_eq d1 d2 :
  gameArea d1 = gameArea d2 -> colorWord d1 = colorWord d2 ->
  currentScoreEl d1 = currentScoreEl d2 -> highScoreEl d1 = highScoreEl d2 ->
  timerBar d1 = timerBar d2 -> gameOverScreen d1 = gameOverScreen d2 ->
  finalScoreEl d1 = finalScoreEl d2 ->
  highScoreMessage d1 = highScoreMessage d2 -> feedback d1 = feedback d2 ->
  colorButtons d1 = colorButtons d2 -> d1 = d2.
Proof. destruct d1, d2. cbn. intros; subst; reflexivity. Qed.

Lemma Element_eq e1 e2 :
  textContent e1 = textContent e2 -> classList e1 = classList e2 ->
  style e1 = style e2 -> disabled e1 = disabled e2 -> e1 = e2.
Proof. destruct e1, e2. cbn. intros; subst; reflexivity. Qed.

(** X8.  [restartGame] is [startGame]: hiding the game-over screen first
    changes nothing, since [startGame] hides it too. *)
Theorem restartGame_is_startGame (fuel : nat) (w : World) :
  restartGame fuel w = startGame fuel w.
Proof.
  unfold restartGame, startGame. f_equal.
  apply World_eq; try reflexivity.
  apply Dom_eq; try reflexivity.
  apply Element_eq; try reflexivity.
  unfold updateCurrentScoreDisplay. project. project_dom.
  apply insert_insert_eq.
Qed.

Lemma endGame_settled w :
  isPlaying (this (endGame w)) = false /\
  gt_num (currentScore (this (endGame w))) (highScore (this (endGame w)))
    = false.
Proof.
  unfold endGame. project.
  destruct (gt_num (currentScore (this w)) (highScore (this w))) eqn:Hgt;
    unfold showGameOverScreen, updateHighScoreDisplay, saveHighScore; project.
  - split; [reflexivity|]. apply Z.ltb_irrefl.
  - split; [reflexivity|exact Hgt].
Qed.

Lemma endGame_when_settled w :
  isPlaying (this w) = false ->
  gt_num (currentScore (this w)) (highScore (this w)) = false ->
  this (endGame w) = this w /\
  localStorage (endGame w) = localStorage w /\
  style (highScoreMessage (dom (endGame w))) !! "display" = Some "none" /\
  style (gameOverScreen (dom (endGame w))) !! "display" = Some "flex".
Proof.
  intros Hp Hgt. unfold endGame. project. rewrite Hgt.
  unfold showGameOverScreen. project. project_dom.
  rewrite !lookup_insert_eq. repeat apply conj; try reflexivity.
  destruct (this w) as [playing0 ? ? ? ? ? ? ? ? ? ? ?]. cbn in Hp.
  subst playing0. reflexivity.
Qed.

(** X9.  Running [endGame] a second time changes neither the game object
    nor the store; it keeps the game-over screen visible and hides the
    new-high-score message, also when the first run had just shown it. *)
Theorem endGame_twice (w : World) :
  this (endGame (endGame w)) = this (endGame w) /\
  localStorage (endGame (endGame w)) = localStorage (endGame w) /\
  style (highScoreMessage (dom (endGame (endGame w)))) !! "display"
    = Some "none" /\
  style (gameOverScreen (dom (endGame (endGame w)))) !! "display"
    = Some "flex".
Proof.
  destruct (endGame_settled w) as [Hp Hgt].
  exact (endGame_when_settled (endGame w) Hp Hgt).
Qed.

(** *** Counting correct answers *)

(** The input leaves the game: a click on the menu button, or a click on
    the exit button or the Escape key while a game is in play. *)
Definition leavesGame (w : World) (i : Input) : bool :=
  match i with
  | User _ (Click MenuBtn) => true
  | User _ (Click ExitBtn) => isPlaying (this w)
  | User _ (KeyDown code) => isPlaying (this w) && String.eqb code "Escape"
  | _ => false
  end.

(** [played w n w']: turns of the event loop lead from [w] to [w']; none of
    them starts a game or leaves it, and [n] of them are correct answers. *)
Inductive played : World -> nat -> World -> Prop :=
| played_none w : played w 0 w
| played_correct fuel w n w1 i w2 :
    played w n w1 -> step fuel w1 i = Some w2 ->
    startsGame w1 i = false -> answersCorrectly w1 i = true ->
    played w (S n) w2
| played_other fuel w n w1 i w2 :
    played w n w1 -> step fuel w1 i = Some w2 ->
    startsGame w1 i = false -> leavesGame w1 i = false ->
    answersCorrectly w1 i = false ->
    played w n w2.

Lemma played_reachable w n w' :
  reachable w -> played w n w' -> reachable w'.
Proof.
  intros Hr. induction 1; eauto using reachable_step.
Qed.

Lemma keydown_keeps_score fuel t code w w' :
  constants (this w) ->
  handleKeyPress fuel code w = Some w' ->
  startsGame w (User t (KeyDown code)) = false ->
  leavesGame w (User t (KeyDown code)) = false ->
  answersCorrectly w (User t (KeyDown code)) = false ->
  score (session w') = score (session w).
Proof.
  intros Hc. unfold answersCorrectly. cbn [startsGame leavesGame answer].
  destruct (isPlaying (this w)) eqn:Hp; cbn [negb andb].
  - rewrite (handleKeyPress_playing fuel code w Hp).
    destruct (keyMap !! code) as [color|].
    + intros [= <-] _ _ Ha.
      destruct (handleColorClick_session color w Hc) as [_ Hs].
      rewrite Hs, Hp, Ha. reflexivity.
    + destruct (bool_decide (code ∈ objectPrototype)).
      * intros [= <-] _ _ _.
        destruct (handleColorClickObject_wrong w) as (color & Hne & ->).
        destruct (handleColorClick_session color w Hc) as [_ Hs].
        rewrite Hs, (bool_decide_eq_false_2 _ Hne), andb_false_r.
        reflexivity.
      * intros H _ Hl _. rewrite Hl in H. injection H as <-. reflexivity.
  - rewrite (handleKeyPress_idle fuel code w Hp).
    destruct (String.eqb code "Space" || String.eqb code "Enter");
      [discriminate|].
    intros [= <-] _ _ _. reflexivity.
Qed.

Lemma click_keeps_score fuel t b w w' :
  constants (this w) ->
  dispatch fuel (Click b) w = Some w' ->
  startsGame w (User t (Click b)) = false ->
  leavesGame w (User t (Click b)) = false ->
  answersCorrectly w (User t (Click b)) = false ->
  score (session w') = score (session w).
Proof.
  intros Hc. unfold answersCorrectly.
  destruct b as [| | | |color]; cbn [dispatch startsGame leavesGame answer];
    try discriminate.
  - intros [= <-] _ Hl _. unfold exitGame. rewrite Hl. reflexivity.
  - destruct (colorButtons (dom w) !! color) as [button|];
      [destruct (disabled button)|]; intros [= <-] _ _ Ha;
      try reflexivity.
    destruct (handleColorClick_session color w Hc) as [_ Hs].
    rewrite Hs, Ha. reflexivity.
Qed.

Lemma runCallback_keeps_score fuel cb w w' :
  runCallback fuel cb w = Some w' -> score (session w') = score (session w).
Proof.
  destruct cb; cbn [runCallback]; intros H;
    try (injection H as <-; reflexivity).
  - apply startNewRound_session in H. destruct H as [Hs _].
    rewrite Hs. reflexivity.
  - injection H as <-. rewrite (proj1 (endGame_session w)).
    unfold afterEnd. destruct gt_num; reflexivity.
Qed.

(** A turn that neither starts nor leaves a game and is no correct answer
    keeps the score. *)
Lemma step_keeps_score fuel w i w' :
  constants (this w) -> step fuel w i = Some w' ->
  startsGame w i = false -> leavesGame w i = false ->
  answersCorrectly w i = false ->
  currentScore (this w') = currentScore (this w).
Proof.
  intros Hc. destruct i as [t e|h]; cbn [step].
  - destruct ((now w <=? t) && forallb (fun tm => t <=? due tm) (timers w));
      [|discriminate].
    destruct e as [b|code]; intros H Hst Hl Ha.
    + exact (click_keeps_score fuel t b (setNow t w) w' Hc H Hst Hl Ha).
    + exact (keydown_keeps_score fuel t code (setNow t w) w' Hc H Hst Hl Ha).
  - destruct List.find as [tm|]; [|discriminate].
    destruct forallb; [|discriminate].
    intros H _ _ _.
    exact (runCallback_keeps_score fuel (callback tm) _ w' H).
Qed.

Lemma step_adds_ten fuel w i w' :
  constants (this w) -> step fuel w i = Some w' ->
  startsGame w i = false -> answersCorrectly w i = true ->
  currentScore (this w') = currentScore (this w) + 10.
Proof.
  intros Hc Hs Hst Ha.
  destruct (step_effect _ _ _ _ Hc Hs) as [_ He].
  rewrite Hst, Ha in He.
  change (currentScore (this w')) with (score (session w')).
  rewrite He. reflexivity.
Qed.

(** X10.  Over turns of the event loop, from a reachable state, that start
    no game and do not leave it - no click on the menu button, and no
    click on the exit button or Escape key while a game is in play - and
    of which [n] are correct answers, the score grows by exactly 10 n.
    The turns may include the end of the game: [endGame] keeps the
    score. *)
Theorem score_counts_correct_answers (w : World) (n : nat) (w' : World) :
  reachable w -> played w n w' ->
  currentScore (this w') = currentScore (this w) + 10 * Z.of_nat n.
Proof.
  intros Hr Hp.
  induction Hp as [w|fuel w n w1 i w2 Hp IH Hs Hst Hc
                     |fuel w n w1 i w2 Hp IH Hs Hst Hl Hc].
  - lia.
  - pose proof (reachable_constants w1 (played_reachable _ _ _ Hr Hp)) as Hk.
    rewrite (step_adds_ten fuel w1 i w2 Hk Hs Hst Hc), (IH Hr). lia.
  - pose proof (reachable_constants w1 (played_reachable _ _ _ Hr Hp)) as Hk.
    rewrite (step_keeps_score fuel w1 i w2 Hk Hs Hst Hl Hc). exact (IH Hr).
Qed.

Definition afterPulse : World :=
  default freshGame (run 5 afterStartKey [Fire 1]).

Definition afterTimerBar : World :=
  default freshGame (run 5 afterPulse [Fire 2]).

(** [run] over inputs none of which starts a game, leaves it or answers
    correctly. *)
Fixpoint runOthers (fuel : nat) (w : World) (inputs : list Input)
    : option World :=
  match inputs with
  | [] => Some w
  | i :: rest =>
      if startsGame w i || leavesGame w i || answersCorrectly w i then None
      else
        match step fuel w i with
        | Some w' => runOthers fuel w' rest
        | None => None
        end
  end.

Lemma played_runOthers fuel inputs : forall w0 n w1 w2,
  played w0 n w1 -> runOthers fuel w1 inputs = Some w2 -> played w0 n w2.
Proof.
  induction inputs as [|i rest IH]; intros w0 n w1 w2 Hp; cbn [runOthers].
  - intros [= <-]. exact Hp.
  - destruct (startsGame w1 i) eqn:Hst; [discriminate|].
    destruct (leavesGame w1 i) eqn:Hl; [discriminate|].
    destruct (answersCorrectly w1 i) eqn:Ha; [discriminate|].
    cbn [orb]. destruct (step fuel w1 i) as [w|] eqn:Hs; [|discriminate].
    apply IH. exact (played_other fuel w0 n w1 i w Hp Hs Hst Hl Ha).
Qed.

(** One correct answer, then a wrong one and the end of the game. *)
Lemma played_to_game_over : played afterStartKey 1 afterGameOver.
Proof.
  apply (played_runOthers 5 thenOneWrongAnswer afterStartKey 1
           afterOneCorrectAnswer); [|vm_compute; reflexivity].
  apply (played_correct 5 afterStartKey 0 afterTimerBar
           (User 100 (KeyDown "KeyB")) afterOneCorrectAnswer);
    [|vm_compute; reflexivity..].
  apply (played_runOthers 5 [Fire 1; Fire 2] afterStartKey 0 afterStartKey);
    [|vm_compute; reflexivity].
  apply played_none.
Qed.

Lemma score_counts_correct_answers_witness :
  isPlaying (this afterGameOver) = false /\
  currentScore (this afterGameOver)
    = currentScore (this afterStartKey) + 10 * Z.of_nat 1.
Proof.
  split; [vm_compute; reflexivity|].
  apply (score_counts_correct_answers afterStartKey 1 afterGameOver).
  - apply (run_reachable 5 [User 0 (KeyDown "Space")] freshGame).
    + apply reachable_constructor.
    + vm_compute. reflexivity.
  - exact played_to_game_over.
Defined.

(** *** Round generation and the rest of the state *)

(** X11.  [generateRoundData] writes [currentWord], [currentFontColor] and
    [correctAnswer] and reads random numbers; every other field of the game,
    the page, the store, the timers and the clock are as before. *)
Theorem generateRoundData_frame (fuel : nat) (w w' : World) :
  generateRoundData fuel w = Some w' ->
  setCorrectAnswer (correctAnswer (this w))
    (setCurrentFontColor (currentFontColor (this w))
       (setCurrentWord (currentWord (this w)) (this w'))) = this w /\
  dom w' = dom w /\ localStorage w' = localStorage w /\
  timers w' = timers w /\ nextHandle w' = nextHandle w /\ now w' = now w /\
  random w' = random w /\ (cursor w < cursor w')%nat.
Proof.
  unfold generateRoundData, Math_random.
  destruct drawFontColorIndex as [[i w1]|] eqn:Hd; [|discriminate].
  intros [= <-]. apply drawFontColorIndex_spec in Hd. project.
  destruct Hd as (_ & Ht & Hdom & Hs & Htm & Hn & Hnow & Hrnd & Hcur & _).
  rewrite Ht. repeat apply conj; try assumption; [|lia].
  destruct (this w). reflexivity.
Qed.

Lemma generateRoundData_frame_witness :
  dom firstRound = dom freshGame /\ timers firstRound = timers freshGame.
Proof.
  assert (Hg : generateRoundData 1 freshGame = Some firstRound)
    by (vm_compute; reflexivity).
  destruct (generateRoundData_frame 1 freshGame firstRound Hg)
    as (_ & Hdom & _ & Htm & _).
  exact (conj Hdom Htm).
Defined.

(** *** The keyboard *)

Lemma keyMap_lookup code color :
  keyMap !! code = Some color <->
  (code, color) ∈
    [("KeyR", "red"); ("Digit1", "red"); ("KeyB", "blue"); ("Digit2", "blue");
     ("KeyG", "green"); ("Digit3", "green"); ("KeyY", "yellow");
     ("Digit4", "yellow")].
Proof.
  unfold keyMap. rewrite <- elem_of_list_to_map; [reflexivity|].
  apply (bool_decide_unpack _). vm_compute. reflexivity.
Qed.

Lemma keyMap_objectPrototype code :
  code ∈ objectPrototype -> keyMap !! code = None.
Proof.
  unfold objectPrototype. intros Hin.
  repeat (apply elem_of_cons in Hin; destruct Hin as [->|Hin]);
    try (vm_compute; reflexivity).
  apply elem_of_nil in Hin. contradiction.
Qed.

(** X12.  While a game is in play a key code that is an own property of
    [keyMap] has the effect of [handleColorClick] for its color and of
    nothing else, and Escape has the effect of [exitGame].  A key code that
    names a property of [Object.prototype] is taken as an answer too, and
    as a wrong one: the countdown is cancelled, the buttons are disabled and
    [handleIncorrectAnswer] runs.  A key code that is neither of these nor
    Escape changes nothing.  Every color a key is bound to is one of
    [colors], and each of the four colors has a letter key and a digit
    key. *)
Theorem keyboard_answers (fuel : nat) (code : string) (w : World) :
  reachable w ->
  isPlaying (this w) = true ->
  (forall color,
     keyMap !! code = Some color ->
     handleKeyPress fuel code w = Some (handleColorClick color w) /\
     color ∈ colors (this w)) /\
  (code = "Escape" -> handleKeyPress fuel code w = Some (exitGame w)) /\
  (code ∈ objectPrototype ->
   handleKeyPress fuel code w =
     Some (handleIncorrectAnswer
             (disableColorButtons (clearTimeout (gameTimer (this w)) w)))) /\
  (keyMap !! code = None -> code ∉ objectPrototype -> code <> "Escape" ->
   handleKeyPress fuel code w = Some w) /\
  (forall color,
     color ∈ colors (this w) ->
     exists letter digit,
       letter <> digit /\
       keyMap !! letter = Some color /\ keyMap !! digit = Some color).
Proof.
  intros Hr Hp. destruct (reachable_constants w Hr) as (_ & _ & Hcolors & _).
  rewrite (handleKeyPress_playing fuel code w Hp), Hcolors.
  repeat apply conj.
  - intros color Hk. rewrite Hk. split; [reflexivity|].
    apply keyMap_lookup in Hk.
    repeat (apply elem_of_cons in Hk; destruct Hk as [[= _ ->]|Hk]);
      try (apply (bool_decide_unpack _); vm_compute; reflexivity).
    apply elem_of_nil in Hk. contradiction.
  - intros ->. rewrite keyMap_Escape. reflexivity.
  - intros Hin. rewrite (keyMap_objectPrototype code Hin).
    rewrite (bool_decide_eq_true_2 _ Hin).
    unfold handleColorClickObject. rewrite Hp. reflexivity.
  - intros -> Hproto Hne. rewrite (bool_decide_eq_false_2 _ Hproto).
    destruct (String.eqb_spec code "Escape"); [contradiction|].
    reflexivity.
  - intros color Hin.
    repeat (apply elem_of_cons in Hin; destruct Hin as [->|Hin]);
      [exists "KeyR", "Digit1"|exists "KeyB", "Digit2"
      |exists "KeyG", "Digit3"|exists "KeyY", "Digit4"
      |apply elem_of_nil in Hin; contradiction];
      (split; [discriminate|split; vm_compute; reflexivity]).
Qed.

Lemma keyboard_answers_witness :
  handleKeyPress 5 "Digit2" afterStartKey
    = Some (handleColorClick "blue" afterStartKey) /\
  "blue" ∈ colors (this afterStartKey).
Proof.
  assert (Hr : reachable afterStartKey).
  { apply (run_reachable 5 [User 0 (KeyDown "Space")] freshGame).
    - apply reachable_constructor.
    - vm_compute. reflexivity. }
  assert (Hp : isPlaying (this afterStartKey) = true)
    by (vm_compute; reflexivity).
  apply (proj1 (keyboard_answers 5 "Digit2" afterStartKey Hr Hp) "blue").
  vm_compute. reflexivity.
Defined.

(** *** The store *)

Lemma startNewRound_storage fuel w w' :
  startNewRound fuel w = Some w' -> localStorage w' = localStorage w.
Proof.
  unfold startNewRound. destruct (isPlaying (this w)); cbn [negb].
  - destruct generateRoundData as [w1|] eqn:Hg; [|discriminate].
    intros [= <-]. apply generateRoundData_this in Hg.
    destruct Hg as (_ & _ & _ & <- & _).
    apply (proj2 (showRound_this w1)).
  - intros [= <-]. reflexivity.
Qed.

(** The item under key [k] of the store is [v]. *)
Definition stored (k : string) (v : option string) (w : World) : Prop :=
  localStorage w !! k = v.

Lemma stored_step k v fuel w i w' :
  k <> "colorMatchHighScore" ->
  stored k v w -> step fuel w i = Some w' -> stored k v w'.
Proof.
  intros Hk. apply step_preserves; clear -Hk.
  - intros t w H. exact H.
  - intros h w H. exact H.
  - intros fuel w w' HP. unfold startGame. intros H. unfold stored.
    rewrite (startNewRound_storage _ _ _ H). exact HP.
  - intros fuel w w' HP. unfold restartGame, startGame. intros H.
    unfold stored. rewrite (startNewRound_storage _ _ _ H). exact HP.
  - intros w HP. unfold exitGame. destruct (isPlaying (this w)); exact HP.
  - intros w HP. exact HP.
  - intros color w HP. unfold handleColorClick.
    destruct (isPlaying (this w)); [|exact HP]. cbn [negb].
    destruct (bool_decide _); exact HP.
  - intros fuel cb w w' HP.
    destruct cb; cbn [runCallback]; try (intros [= <-]; exact HP).
    + intros H. unfold stored.
      rewrite (startNewRound_storage _ _ _ H). exact HP.
    + intros [= <-]. unfold stored, endGame. project.
      destruct (gt_num _ _); [|exact HP].
      unfold showGameOverScreen, updateHighScoreDisplay, saveHighScore.
      project. rewrite lookup_insert_ne by congruence. exact HP.
Qed.

(** The high score is the one loaded from [storage], which still holds the
    same item, or it is a score, which the store holds in decimal. *)
Definition persisted (storage : gmap string string) (w : World) : Prop :=
  reachable w /\
  ((localStorage w !! "colorMatchHighScore"
      = storage !! "colorMatchHighScore" /\
    highScore (this w)
      = match storage !! "colorMatchHighScore" with
        | Some s => if truthy s then JS.parseInt s else Int 0
        | None => Int 0
        end) \/
   (exists n,
      0 <= n /\ highScore (this w) = Int n /\
      localStorage w !! "colorMatchHighScore" = Some (JS.toString (Int n)))).

Lemma persisted_step storage fuel w i w' :
  persisted storage w -> step fuel w i = Some w' -> persisted storage w'.
Proof.
  intros [Hr Hinv] Hs. split; [exact (reachable_step _ _ _ _ Hr Hs)|].
  destruct (step_highScore _ _ _ _ Hr Hs) as [[-> ->]|(_ & -> & ->)];
    [exact Hinv|].
  right. exists (currentScore (this w)). split; [|split; reflexivity].
  destruct (reachable_score w Hr) as (k & Hk & ->). lia.
Qed.

(** X13.  Whatever happens in a session, a game constructed afterwards on
    the store the session leaves behind loads exactly the session's high
    score, provided a numeric high score is below 10^21; and the session
    changes no other key of the store. *)
Theorem high_score_survives_reload (page : Dom) (storage : gmap string string)
    (rnd : nat -> Q) (fuel : nat) (inputs : list Input) (w : World)
    (page' : Dom) (rnd' : nat -> Q) :
  run fuel (constructor page storage rnd) inputs = Some w ->
  (forall n, highScore (this w) = Int n -> n < 10 ^ 21) ->
  highScore (this (constructor page' (localStorage w) rnd'))
    = highScore (this w) /\
  (forall k, k <> "colorMatchHighScore" ->
     localStorage w !! k = storage !! k).
Proof.
  intros Hrun Hbound. split.
  - assert (Hp : persisted storage w).
    { apply (run_preserves (persisted storage) fuel
               (persisted_step storage fuel) inputs
               (constructor page storage rnd) w); [|exact Hrun].
      split; [apply reachable_constructor|]. left. split; reflexivity. }
    destruct Hp as [_ [[Hitem Hhigh]|(n & Hn & Hhigh & Hitem)]];
      unfold constructor, loadHighScore, updateHighScoreDisplay; project;
      rewrite Hitem, Hhigh; [reflexivity|].
    destruct (parseInt_toString n (conj Hn (Hbound n Hhigh))) as [-> ->].
    reflexivity.
  - intros k Hk.
    apply (run_preserves (stored k (storage !! k)) fuel
             (fun w0 i w1 => stored_step k (storage !! k) fuel w0 i w1 Hk)
             inputs
             (constructor page storage rnd) w); [|exact Hrun].
    reflexivity.
Qed.

Lemma high_score_survives_reload_witness :
  highScore (this (constructor blankPage (localStorage afterGameOver)
                     alwaysZero))
    = highScore (this afterGameOver) /\
  (forall k, k <> "colorMatchHighScore" ->
     localStorage afterGameOver !! k = (∅ : gmap string string) !! k).
Proof.
  apply (high_score_survives_reload blankPage ∅ redThenBlue 5
           (oneCorrectAnswer ++ thenOneWrongAnswer)%list afterGameOver).
  - vm_compute. reflexivity.
  - intros n Hn. vm_compute in Hn. injection Hn as <-. reflexivity.
Defined.
